(** * Job dispatch and progress broadcast: the Blender stage worker and the
      WebSocket broadcast server

    A shallow embedding of
      - [backend/blender_worker/enhanced_blender.py]
          ([process_blender_job], [main_worker_loop], [report_progress],
           [import_colmap_scene], [install_colmap_addon],
           [setup_camera_animation]),
      - [backend/websocket/server.py] (class [WebSocketServer],
          [progress_endpoint], [metrics_endpoint]),
      - [backend/api/app_prod.py] ([upload_video], [get_job_status],
          [ConnectionManager], [websocket_endpoint]),
    over a model of the Redis commands these files call
    ([LPUSH], [BRPOP], [SET], [GET]).

    Conventions.
      - A job descriptor / job record is the Python dict [job_data]; it is a
        record here with one field per key the three files read or write.  A
        key that may be absent is an [option] field.
      - [json.dumps] followed by [json.loads] is the identity on these dicts,
        so queue entries and store values are kept as [job_data] values.
      - Redis is reachable: no command raises.
      - [time.time()] readings, file sizes and exception texts come from the
        environment of an attempt.
      - Log lines and the progress events [report_progress] publishes are
        not part of the state: [report_progress] catches its own exceptions
        and touches neither a queue nor the Job Store. *)

From stdpp Require Import gmap strings list fin_maps pretty.
From Stdlib Require Import ZArith Lia Ascii.

Open Scope string_scope.
Open Scope list_scope.
Open Scope Z_scope.

(** ** The job descriptor *)

Definition timestamp := Z.

Record job_data := JobData {
  job_id : string;
  status : string;
  (* keys written by upload_video *)
  filename : option string;
  filepath : option string;
  created_at : option timestamp;
  retries : option Z;
  max_retries : option Z;
  (* keys of the Blender stage *)
  scene_path : option string;
  output_path : option string;
  blender_retries : option Z;
  blender_started_at : option timestamp;
  completed_at : option timestamp;
  output_file : option string;
  file_size : option Z;
  error : option string;
  failed_at : option timestamp
}.

(** [job_data['status'] = s] *)
Definition set_status (s : string) (j : job_data) : job_data :=
  JobData (job_id j) s (filename j) (filepath j) (created_at j) (retries j)
    (max_retries j) (scene_path j) (output_path j) (blender_retries j)
    (blender_started_at j) (completed_at j) (output_file j) (file_size j)
    (error j) (failed_at j).

(** [job_data['blender_retries'] = n] *)
Definition set_blender_retries (n : Z) (j : job_data) : job_data :=
  JobData (job_id j) (status j) (filename j) (filepath j) (created_at j)
    (retries j) (max_retries j) (scene_path j) (output_path j) (Some n)
    (blender_started_at j) (completed_at j) (output_file j) (file_size j)
    (error j) (failed_at j).

(** [job_data['blender_started_at'] = t] *)
Definition set_blender_started_at (t : timestamp) (j : job_data) : job_data :=
  JobData (job_id j) (status j) (filename j) (filepath j) (created_at j)
    (retries j) (max_retries j) (scene_path j) (output_path j)
    (blender_retries j) (Some t) (completed_at j) (output_file j)
    (file_size j) (error j) (failed_at j).

(** [job_data['completed_at'] = t] *)
Definition set_completed_at (t : timestamp) (j : job_data) : job_data :=
  JobData (job_id j) (status j) (filename j) (filepath j) (created_at j)
    (retries j) (max_retries j) (scene_path j) (output_path j)
    (blender_retries j) (blender_started_at j) (Some t) (output_file j)
    (file_size j) (error j) (failed_at j).

(** [job_data['output_file'] = p] *)
Definition set_output_file (p : string) (j : job_data) : job_data :=
  JobData (job_id j) (status j) (filename j) (filepath j) (created_at j)
    (retries j) (max_retries j) (scene_path j) (output_path j)
    (blender_retries j) (blender_started_at j) (completed_at j) (Some p)
    (file_size j) (error j) (failed_at j).

(** [job_data['file_size'] = n] *)
Definition set_file_size (n : Z) (j : job_data) : job_data :=
  JobData (job_id j) (status j) (filename j) (filepath j) (created_at j)
    (retries j) (max_retries j) (scene_path j) (output_path j)
    (blender_retries j) (blender_started_at j) (completed_at j)
    (output_file j) (Some n) (error j) (failed_at j).

(** [job_data['error'] = e] *)
Definition set_error (e : string) (j : job_data) : job_data :=
  JobData (job_id j) (status j) (filename j) (filepath j) (created_at j)
    (retries j) (max_retries j) (scene_path j) (output_path j)
    (blender_retries j) (blender_started_at j) (completed_at j)
    (output_file j) (file_size j) (Some e) (failed_at j).

(** [job_data['failed_at'] = t] *)
Definition set_failed_at (t : timestamp) (j : job_data) : job_data :=
  JobData (job_id j) (status j) (filename j) (filepath j) (created_at j)
    (retries j) (max_retries j) (scene_path j) (output_path j)
    (blender_retries j) (blender_started_at j) (completed_at j)
    (output_file j) (file_size j) (error j) (Some t).

(** ** Redis: named lists and string keys *)

Module Redis.

Record t := Make {
  lists : gmap string (list job_data);
  strings : gmap string job_data
}.

Definition empty : t := Make ∅ ∅.

(** [LRANGE key 0 -1]: the list under [key], head (left) first.  A missing
    key reads as the empty list. *)
Definition lrange (key : string) (r : t) : list job_data :=
  default [] (lists r !! key).

(** [LPUSH key v]: insert at the head, creating the list if needed. *)
Definition lpush (key : string) (v : job_data) (r : t) : t :=
  Make (<[key := v :: lrange key r]> (lists r)) (strings r).

(** The tail element of a list and the elements before it. *)
Fixpoint unsnoc (l : list job_data) : option (list job_data * job_data) :=
  match l with
  | [] => None
  | x :: l' =>
      match unsnoc l' with
      | None => Some ([], x)
      | Some (init, y) => Some (x :: init, y)
      end
  end.

(** [BRPOP [key] timeout]: remove and return the tail element; [None] when
    the list stays empty until the timeout.  Redis removes a key whose list
    becomes empty. *)
Definition brpop (key : string) (r : t) : option (job_data * t) :=
  match unsnoc (lrange key r) with
  | None => None
  | Some (init, v) =>
      Some (v, Make (match init with
                     | [] => delete key (lists r)
                     | _ :: _ => <[key := init]> (lists r)
                     end) (strings r))
  end.

(** [SET key v] *)
Definition set (key : string) (v : job_data) (r : t) : t :=
  Make (lists r) (<[key := v]> (strings r)).

(** [GET key] *)
Definition get (key : string) (r : t) : option job_data :=
  strings r !! key.

End Redis.

(** The Job Store key [f"job:{job_id}"]. *)
Definition job_key (id : string) : string := ("job:" ++ id)%string.

(** ** The Blender stage worker ([enhanced_blender.py]) *)

(** What the environment does during one call of [process_blender_job]: the
    two clock readings, and whether every step of the [try] body between the
    first and the last store write goes through (path checks, directory
    creation, scene import, save, size of the saved file) or one of them
    raises. *)
Record attempt := Attempt {
  started : timestamp;
  finished : timestamp;
  saved : option Z;        (* [Some size]: the blend file was written *)
  raised : string          (* [str(e)] of the exception otherwise *)
}.

(** Lines 246-267 of [process_blender_job], the part of the [try] body that
    touches neither the dict nor the store: the saved file's path and size,
    or [None] when a step raises.  A missing [scene_path] or [output_path]
    makes [os.path.exists] / [os.path.dirname] raise. *)
Definition blender_run (a : attempt) (job_data0 : job_data) : option (string * Z) :=
  match scene_path job_data0, output_path job_data0, saved a with
  | Some _, Some output_path, Some size => Some (output_path, size)
  | _, _, _ => None
  end.

(** [process_blender_job(job_data)]: returns the function's result, the dict
    as the call leaves it (it is mutated in place), and the store. *)
Definition process_blender_job (a : attempt) (job_data0 : job_data) (r : Redis.t)
  : bool * job_data * Redis.t :=
  let job_id := job_id job_data0 in
  let job_data1 :=
    set_blender_started_at (started a) (set_status "processing_blender" job_data0) in
  let r1 := Redis.set (job_key job_id) job_data1 r in
  match blender_run a job_data0 with
  | Some (output_path, size) =>
      let job_data2 :=
        set_file_size size
          (set_output_file output_path
             (set_completed_at (finished a) (set_status "completed" job_data1))) in
      (true, job_data2, Redis.set (job_key job_id) job_data2 r1)
  | None =>
      let job_data2 :=
        set_failed_at (finished a)
          (set_error (raised a) (set_status "failed_blender" job_data1)) in
      (false, job_data2, Redis.set (job_key job_id) job_data2 r1)
  end.

(** The state the worker acts on: Redis and the pauses it has taken. *)
Record world := World {
  redis : Redis.t;
  slept : list Z
}.

Definition retry_delay : Z := 30.

(** The body of the [while True] loop after a descriptor has been popped:
    lines 312-334. *)
Definition handle_job (max_retries : Z) (a : attempt) (job_data0 : job_data) (w : world)
  : world :=
  let retries := default 0 (blender_retries job_data0) in
  let '(ok, job_data1, r1) := process_blender_job a job_data0 (redis w) in
  if ok then World r1 (slept w)
  else if retries <? max_retries then
    let new_retries := retries + 1 in
    let job_data2 := set_status "retry_blender" (set_blender_retries new_retries job_data1) in
    World (Redis.lpush "blender_jobs" job_data2 r1) (slept w ++ [retry_delay])
  else
    World (Redis.lpush "failed_blender_jobs" job_data1 r1) (slept w).

(** One iteration of [main_worker_loop]: when [BRPOP] times out the loop
    goes on to the next iteration. *)
Definition worker_iteration (max_retries : Z) (a : attempt) (w : world) : world :=
  match Redis.brpop "blender_jobs" (redis w) with
  | None => w
  | Some (job_data, r1) => handle_job max_retries a job_data (World r1 (slept w))
  end.

(** [main_worker_loop]: consecutive iterations, one environment per
    iteration. *)
Definition main_worker_loop (max_retries : Z) (attempts : list attempt) (w : world) : world :=
  fold_left (fun w a => worker_iteration max_retries a w) attempts w.

(** ** The ingestion gateway ([app_prod.py], [upload_video]) *)

(** One request: the generated [uuid4], the uploaded file's name and size,
    the outcome of the two validations and of writing the file, the clock. *)
Record upload := Upload {
  uuid : string;
  upload_name : string;
  format_ok : bool;        (* the name ends in .mp4, .mov, .avi or .mkv *)
  size_ok : bool;          (* [file.size <= MAX_UPLOAD_SIZE] *)
  written : bool;          (* the copy to /app/input_videos did not raise *)
  now : timestamp
}.

(** [upload_video]: the job id returned to the caller ([None] for an HTTP
    error) and the store.  Nothing is queued when a validation fails. *)
Definition upload_video (u : upload) (r : Redis.t) : option string * Redis.t :=
  if negb (format_ok u) then (None, r)
  else if negb (size_ok u) then (None, r)
  else
    let job_id := uuid u in
    let filename := (job_id ++ "_" ++ upload_name u)%string in
    let filepath := ("/app/input_videos/" ++ filename)%string in
    if negb (written u) then (None, r)
    else
      let job_data :=
        JobData job_id "queued" (Some filename) (Some filepath) (Some (now u))
          (Some 0) (Some 3) None None None None None None None None None in
      (Some job_id,
       Redis.set (job_key job_id) job_data (Redis.lpush "colmap_jobs" job_data r)).

(** ** A pool of stage workers on one Redis

    Every worker process runs [main_worker_loop].  A step of the pool is one
    worker's [BRPOP] (atomic in Redis), one worker's handling of the
    descriptor it holds, or one upload at the gateway. *)
Record pool := Pool {
  shared : world;
  holding : gmap nat job_data      (* worker -> descriptor popped, in process *)
}.

Inductive pool_step (max_retries : Z) : pool -> pool -> Prop :=
  | step_pop p wid job_data r1 :
      holding p !! wid = None ->
      Redis.brpop "blender_jobs" (redis (shared p)) = Some (job_data, r1) ->
      pool_step max_retries p
        (Pool (World r1 (slept (shared p))) (<[wid := job_data]> (holding p)))
  | step_handle p wid job_data a :
      holding p !! wid = Some job_data ->
      pool_step max_retries p
        (Pool (handle_job max_retries a job_data (shared p)) (delete wid (holding p)))
  | step_upload p u :
      Redis.get (job_key (uuid u)) (redis (shared p)) = None ->
      pool_step max_retries p
        (Pool (World (upload_video u (redis (shared p))).2 (slept (shared p)))
              (holding p)).

(** The job ids of the descriptors in a list. *)
Definition ids (l : list job_data) : list string := map job_id l.

Definition queue (p : pool) : list job_data :=
  Redis.lrange "blender_jobs" (redis (shared p)).

Definition dead_letters (p : pool) : list job_data :=
  Redis.lrange "failed_blender_jobs" (redis (shared p)).

(** A job id is on at most one descriptor, queued or held. *)
Definition exclusive (p : pool) : Prop :=
  (NoDup (ids (queue p))) /\
  (forall wid d, holding p !! wid = Some d -> job_id d ∉ ids (queue p)) /\
  (forall w1 w2 d1 d2,
     holding p !! w1 = Some d1 -> holding p !! w2 = Some d2 ->
     job_id d1 = job_id d2 -> w1 = w2).

(** No descriptor of job [j] is queued or held. *)
Definition retired (j : string) (p : pool) : Prop :=
  (j ∉ ids (queue p)) /\ (forall wid d, holding p !! wid = Some d -> job_id d <> j).

(** ** The broadcast server ([websocket/server.py]) *)

Module WebSocketServer.

(** A connection object, named by its identity [id(websocket)]. *)
Definition socket := N.

(** How [websocket.send] ends: it returns, raises [ConnectionClosed], or
    raises another exception. *)
Inductive send_result := Sent | ConnectionClosed | OtherError.

#[global] Instance send_result_eq_dec : EqDecision send_result.
Proof. solve_decision. Defined.

(** The payload of a progress event. *)
Record progress_event := ProgressEvent {
  event_job_id : string;
  stage : string;
  progress : Z;
  message : string;
  event_time : timestamp
}.

(** The outbound messages. *)
Inductive out_message :=
  | Connection (client_id : string)      (* type connection, status connected *)
  | JobStatus (job_id : string) (data : job_data)
  | ProgressUpdate (job_id : string) (data : progress_event)
  | SystemMetrics (data : string).

(** One call of [send] on a socket, with its outcome.  The message reaches
    the peer when the outcome is [Sent]. *)
Record send_call := SendCall {
  target : socket;
  payload : out_message;
  outcome : send_result
}.

(** [self.clients], and the calls of [send] made so far, oldest first. *)
Record t := Make {
  clients : gmap string socket;
  wire : list send_call
}.

(** The state of the network during an operation. *)
Definition network := socket -> send_result.

Section Operations.
Variable net : network.

(** [unregister_client] *)
Definition unregister_client (client_id : string) (s : t) : t :=
  match clients s !! client_id with
  | Some _ => Make (delete client_id (clients s)) (wire s)
  | None => s
  end.

(** [send_to_client] *)
Definition send_to_client (client_id : string) (m : out_message) (s : t) : bool * t :=
  match clients s !! client_id with
  | Some ws =>
      let s1 := Make (clients s) (wire s ++ [SendCall ws m (net ws)]) in
      match net ws with
      | Sent => (true, s1)
      | ConnectionClosed => (false, unregister_client client_id s1)
      | OtherError => (false, s1)
      end
  | None => (false, s)
  end.

(** [register_client] *)
Definition register_client (ws : socket) (client_id : string) (s : t) : t :=
  let s1 := Make (<[client_id := ws]> (clients s)) (wire s) in
  (send_to_client client_id (Connection client_id) s1).2.

(** The [for] loop of [broadcast]: the ids collected in
    [disconnected_clients] and the calls made. *)
Fixpoint broadcast_pass (m : out_message) (items : list (string * socket))
    (disconnected_clients : list string) (calls : list send_call)
  : list string * list send_call :=
  match items with
  | [] => (disconnected_clients, calls)
  | (client_id, ws) :: rest =>
      match net ws with
      | Sent =>
          broadcast_pass m rest disconnected_clients
            (calls ++ [SendCall ws m Sent])
      | failure =>
          broadcast_pass m rest (disconnected_clients ++ [client_id])
            (calls ++ [SendCall ws m failure])
      end
  end.

(** [broadcast].  The items of the dict are visited in the order of
    [map_to_list]. *)
Definition broadcast (m : out_message) (s : t) : t :=
  if decide (clients s = ∅) then s
  else
    let '(disconnected_clients, calls) :=
      broadcast_pass m (map_to_list (clients s)) [] (wire s) in
    fold_left (fun s client_id => unregister_client client_id s)
      disconnected_clients (Make (clients s) calls).

(** [subscribe_to_job_progress] *)
Definition subscribe_to_job_progress (r : Redis.t) (client_id job_id : string) (s : t) : t :=
  match Redis.get (job_key job_id) r with
  | Some job_data => (send_to_client client_id (JobStatus job_id job_data) s).2
  | None => s
  end.

(** The body of the [async for] of [redis_listener] for a [pmessage] on
    channel [progress:<job_id>]. *)
Definition redis_listener (job_id : string) (data : progress_event) (s : t) : t :=
  broadcast (ProgressUpdate job_id data) s.

(** [metrics_endpoint] *)
Definition metrics_endpoint (data : string) (s : t) : t :=
  broadcast (SystemMetrics data) s.

(** What a client sends.  [Identify None] has no [client_id] key;
    [Unparsable] makes [json.loads] or [data.get] raise. *)
Inductive frame :=
  | Identify (client_id : option string)
  | SubscribeJob (job_id : option string)
  | OtherType
  | Unparsable.

(** Python's truth value of an optional string. *)
Definition truthy (o : option string) : bool :=
  match o with
  | Some s => negb (String.eqb s "")
  | None => false
  end.

(** f"client_{id(websocket)}" *)
Definition default_client_id (ws : socket) : string :=
  ("client_" ++ pretty ws)%string.

(** The body of the [async for] of [handle_client] on connection [ws]
    whose local variable [client_id] has the given value: the new value
    of [client_id] and the server, or [None] when the body raises. *)
Definition on_frame (r : Redis.t) (ws : socket) (client_id : option string)
    (data : frame) (s : t) : option (option string * t) :=
  match data with
  | Unparsable => None
  | Identify c =>
      let client_id' := default (default_client_id ws) c in
      Some (Some client_id', register_client ws client_id' s)
  | SubscribeJob job_id =>
      if truthy job_id && truthy client_id then
        match job_id, client_id with
        | Some j, Some c => Some (client_id, subscribe_to_job_progress r c j s)
        | _, _ => Some (client_id, s)
        end
      else Some (client_id, s)
  | OtherType => Some (client_id, s)
  end.

(** The [async for] loop over the frames a connection delivers before it
    closes. *)
Fixpoint receive (r : Redis.t) (ws : socket) (client_id : option string)
    (frames : list frame) (s : t) : option string * t :=
  match frames with
  | [] => (client_id, s)
  | data :: rest =>
      match on_frame r ws client_id data s with
      | Some (client_id', s') => receive r ws client_id' rest s'
      | None => (client_id, s)
      end
  end.

(** The [finally] clause of [handle_client]. *)
Definition finally (client_id : option string) (s : t) : t :=
  match client_id with
  | Some c => if truthy client_id then unregister_client c s else s
  | None => s
  end.

(** [handle_client] on a connection that delivers [frames] and closes. *)
Definition handle_client (r : Redis.t) (ws : socket) (frames : list frame) (s : t) : t :=
  let '(client_id, s') := receive r ws None frames s in
  finally client_id s'.

End Operations.

(** *** Several connections on one event loop

    The server runs one [handle_client] coroutine per open connection, each
    with its own local variable [client_id], next to [redis_listener].  An
    event is what the loop handles in one piece: a coroutine starts, receives
    one frame, or ends; the listener receives one message; a metrics report
    arrives. *)
Inductive event :=
  | Connect (ws : socket)
  | Receive (ws : socket) (data : frame)
  | Close (ws : socket)
  | Progress (job_id : string) (data : progress_event)
  | Metrics (data : string).

Record node := Node {
  server : t;
  sessions : gmap socket (option string)   (* connection -> its [client_id] *)
}.

(** One event, with the network and the store as they are when it happens. *)
Definition step (net : network) (r : Redis.t) (e : event) (n : node) : node :=
  match e with
  | Connect ws => Node (server n) (<[ws := None]> (sessions n))
  | Receive ws data =>
      match sessions n !! ws with
      | Some client_id =>
          match on_frame net r ws client_id data (server n) with
          | Some (client_id', s') => Node s' (<[ws := client_id']> (sessions n))
          | None => Node (finally client_id (server n)) (delete ws (sessions n))
          end
      | None => n
      end
  | Close ws =>
      match sessions n !! ws with
      | Some client_id => Node (finally client_id (server n)) (delete ws (sessions n))
      | None => n
      end
  | Progress job_id data => Node (redis_listener net job_id data (server n)) (sessions n)
  | Metrics data => Node (metrics_endpoint net data (server n)) (sessions n)
  end.

Definition run (events : list (network * Redis.t * event)) (n : node) : node :=
  fold_left (fun n '(net, r, e) => step net r e n) events n.


(** The messages a socket has received: the payloads of the calls on it that
    returned. *)
Definition received (ws : socket) (calls : list send_call) : list out_message :=
  omap (fun c =>
          match outcome c with
          | Sent => if decide (target c = ws) then Some (payload c) else None
          | _ => None
          end) calls.

End WebSocketServer.

(** ** Queue disciplines built from the two commands the code uses *)

(** The producers call [LPUSH], the worker calls [BRPOP]. *)
Inductive queue_op := Enqueue (d : job_data) | Dequeue.

(** The descriptors a sequence of operations on one key hands out, in the
    order they are handed out, and the final store.  A [Dequeue] on an empty
    list times out. *)
Fixpoint run_queue (key : string) (ops : list queue_op) (r : Redis.t)
  : list job_data * Redis.t :=
  match ops with
  | [] => ([], r)
  | Enqueue d :: ops' => run_queue key ops' (Redis.lpush key d r)
  | Dequeue :: ops' =>
      match Redis.brpop key r with
      | Some (d, r') =>
          let '(out, r'') := run_queue key ops' r' in (d :: out, r'')
      | None => run_queue key ops' r
      end
  end.




(** The three ways [handle_job] ends. *)
Inductive handled (max_retries : Z) (a : attempt) (jd : job_data) (w w' : world)
  : job_data -> Prop :=
  | handled_completed rec :
      is_Some (blender_run a jd) ->
      status rec = "completed" ->
      Redis.lists (redis w') = Redis.lists (redis w) ->
      slept w' = slept w ->
      handled max_retries a jd w w' rec
  | handled_retry rec :
      blender_run a jd = None ->
      default 0 (blender_retries jd) < max_retries ->
      status rec = "failed_blender" ->
      Redis.lrange "blender_jobs" (redis w') =
        set_status "retry_blender"
          (set_blender_retries (default 0 (blender_retries jd) + 1) rec)
        :: Redis.lrange "blender_jobs" (redis w) ->
      (forall key, key <> "blender_jobs" ->
         Redis.lrange key (redis w') = Redis.lrange key (redis w)) ->
      slept w' = slept w ++ [retry_delay] ->
      handled max_retries a jd w w' rec
  | handled_dead rec :
      blender_run a jd = None ->
      max_retries <= default 0 (blender_retries jd) ->
      status rec = "failed_blender" ->
      Redis.lrange "failed_blender_jobs" (redis w') =
        rec :: Redis.lrange "failed_blender_jobs" (redis w) ->
      (forall key, key <> "failed_blender_jobs" ->
         Redis.lrange key (redis w') = Redis.lrange key (redis w)) ->
      slept w' = slept w ->
      handled max_retries a jd w w' rec.

(** ** Scenarios *)

(** Job [A] as it is first enqueued on the Blender stage. *)
Definition jobA : job_data :=
  JobData "A" "queued" None None None None (Some 2)
    (Some "/data/A/colmap") (Some "/data/A/scene.blend")
    None None None None None None None.

Definition jobB : job_data :=
  JobData "B" "queued" None None None None (Some 2)
    (Some "/data/B/colmap") (Some "/data/B/scene.blend")
    None None None None None None None.

(** An attempt in which the scene import raises, and one that saves a file. *)
Definition failing (t : timestamp) : attempt :=
  Attempt t (t + 5) None "Failed to import COLMAP scene".

Definition succeeding (t : timestamp) : attempt :=
  Attempt t (t + 5) (Some 4096) "".

(** [A] alone on the queue of an otherwise empty Redis. *)
Definition only_A : world :=
  World (Redis.lpush "blender_jobs" jobA Redis.empty) [].

(** A pool in which worker 0 holds [A] and [B] is queued. *)
Definition pool_A_held : pool :=
  Pool (World (Redis.lpush "blender_jobs" jobB Redis.empty) []) {[ 0%nat := jobA ]}.

(** The record of job [X] in the Job Store, two open sockets, and a network on
    which socket 1 is closed. *)
Definition jobX : job_data :=
  JobData "X" "processing_blender" None None None None None
    (Some "/data/X/colmap") (Some "/data/X/scene.blend")
    None (Some 100) None None None None None.

Definition store_X : Redis.t := Redis.set (job_key "X") jobX Redis.empty.

Definition all_open : WebSocketServer.network := fun _ => WebSocketServer.Sent.

Definition one_closed : WebSocketServer.network :=
  fun ws => if decide (ws = 1%N) then WebSocketServer.ConnectionClosed
            else WebSocketServer.Sent.

Definition one_broken : WebSocketServer.network :=
  fun ws => if decide (ws = 1%N) then WebSocketServer.OtherError
            else WebSocketServer.Sent.

Definition no_node : WebSocketServer.node :=
  WebSocketServer.Node (WebSocketServer.Make ∅ []) ∅.

(** Clients [c1] on socket 1 and [c2] on socket 2 are registered. *)
Definition c1_c2 : WebSocketServer.t :=
  WebSocketServer.Make {[ "c1" := 1%N; "c2" := 2%N ]} [].

Definition event42 : WebSocketServer.progress_event :=
  WebSocketServer.ProgressEvent "X" "blender_import" 30 "Loading COLMAP data" 101.

(** ** The progress channel ([report_progress], [progress_endpoint],
       [redis_listener]) *)

Module ProgressChannel.
Import WebSocketServer.

(** A message published on Redis: the channel and the payload, which
    [json.dumps] wrote. *)
Definition publication := (string * progress_event)%type.

(** f"progress:{job_id}" *)
Definition channel_of (job_id : string) : string := ("progress:" ++ job_id)%string.

(** [progress_endpoint] of [server.py].  The body is [None] when
    [request.json()] raises.  A body without a [job_id] key and one whose
    [job_id] is empty take the same branch; both are an empty
    [event_job_id] here. *)
Definition progress_endpoint (body : option progress_event) : Z * list publication :=
  match body with
  | None => (500, [])
  | Some data =>
      let job_id := event_job_id data in
      if negb (String.eqb job_id "") then (200, [(channel_of job_id, data)])
      else (400, [])
  end.

(** How [requests.post] ends in [report_progress]: it raises (refused,
    timeout); it returns a response that [progress_endpoint] did not
    produce; or the request was served by [progress_endpoint].  The response
    is not looked at. *)
Inductive post_outcome := PostRaised | PostElsewhere | PostServed.

(** [report_progress] of [enhanced_blender.py]: what ends up published.  The
    POST comes first; when it raises, the [except] clause skips the
    publish. *)
Definition report_progress (post : post_outcome) (time : timestamp)
    (job_id stage : string) (progress : Z) (message : string) : list publication :=
  let payload := ProgressEvent job_id stage progress message time in
  match post with
  | PostRaised => []
  | PostElsewhere => [(channel_of job_id, payload)]
  | PostServed => (progress_endpoint (Some payload)).2 ++ [(channel_of job_id, payload)]
  end.

(** [channel.split(':', 1)[1]]: the text after the first colon; [None] when
    there is no colon and the index raises. *)
Fixpoint after_colon (channel : string) : option string :=
  match channel with
  | EmptyString => None
  | String c rest => if Ascii.eqb c ":"%char then Some rest else after_colon rest
  end.

(** What [pubsub.listen()] yields: a [pmessage] with its channel and its
    data ([None] when [json.loads] raises on it), or a message of another
    type. *)
Inductive bus_message :=
  | PMessage (channel : string) (data : option progress_event)
  | OtherMessage.

(** The body of the [async for] of [redis_listener], from the message as
    Redis delivers it. *)
Definition on_bus_message (net : network) (m : bus_message) (s : t) : t :=
  match m with
  | PMessage channel data =>
      match after_colon channel, data with
      | Some job_id, Some d => redis_listener net job_id d s
      | _, _ => s
      end
  | OtherMessage => s
  end.

(** The listener receives the publications in the order they were made. *)
Definition listen (net : network) (pubs : list publication) (s : t) : t :=
  fold_left (fun s '(channel, d) => on_bus_message net (PMessage channel (Some d)) s)
    pubs s.

End ProgressChannel.

(** ** Inside one attempt: [import_colmap_scene], [install_colmap_addon] and
       the progress reports of [process_blender_job] *)

Module Blender.

(** One call of [report_progress]: stage, progress, message. *)
Record report := Report {
  report_stage : string;
  report_progress : Z;
  report_message : string
}.

(** What Blender and the file system do during one attempt. *)
Record scene_env := SceneEnv {
  factory_reset : bool;              (* [read_factory_settings] returns *)
  addon_enabled : bool;              (* the addon is in [preferences.addons] *)
  archive : string -> option bool;   (* no file at the path, or whether
                                        [addon_install] and [addon_enable]
                                        return for it *)
  enable_installed : bool;           (* the last [addon_enable] returns *)
  sparse_exists : bool;              (* <scene_path>/sparse/0 exists *)
  present : string -> bool;          (* the file exists in that folder *)
  colmap_import : bool;              (* [import_scene.colmap] returns *)
  fallback_import : bool             (* [import_scene.photogrammetry_models]
                                        returns *)
}.

Definition addon_paths : list string :=
  ["/app/addons/photogrammetry_importer.zip";
   "/opt/blender_addons/photogrammetry_importer.zip"].

(** The [for addon_path in addon_paths] loop of [install_colmap_addon]. *)
Fixpoint install_from (archive : string -> option bool) (paths : list string) : bool :=
  match paths with
  | [] => false
  | addon_path :: rest =>
      match archive addon_path with
      | Some true => true
      | _ => install_from archive rest
      end
  end.

(** [install_colmap_addon] *)
Definition install_colmap_addon (e : scene_env) : bool :=
  if addon_enabled e then true
  else if install_from (archive e) addon_paths then true
  else enable_installed e.

Definition required_files : list string :=
  ["cameras.bin"; "images.bin"; "points3D.bin"].

(** [import_colmap_scene]: its result and the reports it makes, in order.
    [optimize_scene] and [setup_scene_materials] catch what they raise. *)
Definition import_colmap_scene (e : scene_env) : bool * list report :=
  if negb (factory_reset e) then (false, [])
  else if negb (install_colmap_addon e) then (false, [])
  else
    let reports1 := [Report "blender_import" 10 "Preparing Blender scene"] in
    if negb (sparse_exists e) then (false, reports1)
    else if negb (forallb (present e) required_files) then (false, reports1)
    else
      let reports2 := reports1 ++ [Report "blender_import" 30 "Loading COLMAP data"] in
      if negb (colmap_import e || fallback_import e) then (false, reports2)
      else
        (true,
         reports2 ++ [Report "blender_import" 60 "Optimizing scene";
                      Report "blender_import" 80 "Setting up materials and lighting"]).

(** Whether a path has a slash. *)
Fixpoint has_slash (p : string) : bool :=
  match p with
  | EmptyString => false
  | String c rest => Ascii.eqb c "/"%char || has_slash rest
  end.

(** [os.path.basename]: what follows the last slash. *)
Fixpoint basename (p : string) : string :=
  match p with
  | EmptyString => EmptyString
  | String c rest =>
      if has_slash rest then basename rest
      else if Ascii.eqb c "/"%char then rest
      else p
  end.

(** The environment of one call of [process_blender_job]. *)
Record session := Session {
  time_started : timestamp;
  time_finished : timestamp;
  scene_found : bool;           (* [os.path.exists(scene_path)] *)
  directory_made : bool;        (* [os.makedirs] returns *)
  scene : scene_env;
  save_returns : bool;          (* [save_as_mainfile] returns *)
  output_found : bool;          (* [os.path.exists(output_path)] after it *)
  output_size : Z;              (* [os.path.getsize(output_path)] *)
  library_error : string        (* [str(e)] when [os] or [bpy] raises *)
}.

(** The [except] clause: the attempt as the store sees it, and the last
    report. *)
Definition failed (s : session) (e : string) (reports : list report)
  : attempt * list report :=
  (Attempt (time_started s) (time_finished s) None e,
   reports ++ [Report "failed" 0 ("Blender processing failed: " ++ e)%string]).

(** The [try] body of [process_blender_job] between its two store writes,
    step by step: the attempt it amounts to and the reports made.  A missing
    path makes [os.path.exists] or [os.path.dirname] raise. *)
Definition run_session (s : session) (job_data0 : job_data) : attempt * list report :=
  match scene_path job_data0 with
  | None => failed s (library_error s) []
  | Some scene_path =>
      if negb (scene_found s)
      then failed s ("Scene path does not exist: " ++ scene_path)%string []
      else
        match output_path job_data0 with
        | None => failed s (library_error s) []
        | Some output_path =>
            if negb (directory_made s) then failed s (library_error s) []
            else
              let '(imported, reports1) := import_colmap_scene (scene s) in
              if negb imported then failed s "Failed to import COLMAP scene" reports1
              else
                let reports2 :=
                  reports1 ++ [Report "blender_save" 90 "Saving Blender file"] in
                if negb (save_returns s) then failed s (library_error s) reports2
                else if negb (output_found s)
                then failed s "Failed to save blend file" reports2
                else
                  (Attempt (time_started s) (time_finished s) (Some (output_size s)) "",
                   reports2 ++
                   [Report "completed" 100
                      ("Processing completed. File saved: " ++ basename output_path)%string])
        end
  end.

End Blender.

(** ** [setup_camera_animation] *)

Module Animation.
Section Cameras.

(** The values of [location] and [rotation_euler]. *)
Variable pose : Type.

Record camera := Camera {
  camera_name : string;
  location : pose;
  rotation_euler : pose
}.

(** One call of [keyframe_insert] on the main camera, with the value the
    property has at the call. *)
Record insert_call := KeyframeInsert {
  data_path : string;
  frame : Z;
  keyed : pose
}.

(** [scene.frame_start] and [scene.frame_end]. *)
Record timeline := Timeline {
  frame_start : Z;
  frame_end : Z
}.

(** The loop [for i, cam in enumerate(cameras[1:], 1)]. *)
Fixpoint animate (main_camera : camera) (i : Z) (others : list camera)
    (calls : list insert_call) : camera * list insert_call :=
  match others with
  | [] => (main_camera, calls)
  | cam :: rest =>
      let frame := i * 5 in
      let main_camera' :=
        Camera (camera_name main_camera) (location cam) (rotation_euler cam) in
      animate main_camera' (i + 1) rest
        (calls ++ [KeyframeInsert "location" frame (location cam);
                   KeyframeInsert "rotation_euler" frame (rotation_euler cam)])
  end.

(** [setup_camera_animation], the [bpy] calls returning: the scene's frame
    range, the cameras and the keyframes inserted.  The last loop, which
    sets the interpolation of the keyframes Blender holds, is left out. *)
Definition setup_camera_animation (cameras : list camera) (scene : timeline)
  : timeline * list camera * list insert_call :=
  if (Z.of_nat (length cameras) <? 2) then (scene, cameras, [])
  else
    match cameras with
    | [] => (scene, cameras, [])
    | main_camera :: others =>
        let scene' := Timeline 1 (Z.of_nat (length cameras) * 5) in
        let main_camera' :=
          Camera "AnimatedCamera" (location main_camera) (rotation_euler main_camera) in
        let '(main_camera'', calls) := animate main_camera' 1 others [] in
        (scene', main_camera'' :: others, calls)
    end.

End Cameras.
End Animation.

(** ** The gateway's other endpoints ([app_prod.py]) *)

(** [get_job_status]: the HTTP status and the body.  The 404 is raised
    inside the [try] and caught by its [except Exception], which answers
    500. *)
Definition get_job_status (job_id : string) (r : Redis.t) : Z * option job_data :=
  match Redis.get (job_key job_id) r with
  | Some job_data => (200, Some job_data)
  | None => (500, None)
  end.

(** The HTTP status of [upload_video] and the [job_id] of its body: the 400s
    are raised inside the [try] and caught by its [except Exception] too. *)
Definition upload_video_response (u : upload) (r : Redis.t) : Z * option string :=
  match (upload_video u r).1 with
  | Some job_id => (200, Some job_id)
  | None => (500, None)
  end.

(** [ConnectionManager] *)
Module ConnectionManager.
Import WebSocketServer.

(** [self.active_connections], and the calls of [send_text] made so far. *)
Record t := Make {
  active_connections : gmap string socket;
  sent : list (socket * progress_event * send_result)
}.

(** [connect], when [websocket.accept()] returns. *)
Definition connect (ws : socket) (client_id : string) (m : t) : t :=
  Make (<[client_id := ws]> (active_connections m)) (sent m).

(** [disconnect] *)
Definition disconnect (client_id : string) (m : t) : t :=
  match active_connections m !! client_id with
  | Some _ => Make (delete client_id (active_connections m)) (sent m)
  | None => m
  end.

(** [send_progress] *)
Definition send_progress (net : network) (client_id : string)
    (progress : progress_event) (m : t) : t :=
  match active_connections m !! client_id with
  | Some ws =>
      let m1 := Make (active_connections m) (sent m ++ [(ws, progress, net ws)]) in
      match net ws with
      | Sent => m1
      | _ => disconnect client_id m1
      end
  | None => m
  end.

(** [websocket_endpoint]: [connect], the receive loop until it raises, and
    the [finally] clause.  [None] when [accept] raises, before the [try]. *)
Definition websocket_endpoint (accepted : bool) (ws : socket) (client_id : string)
    (m : t) : option t :=
  if accepted then Some (disconnect client_id (connect ws client_id m))
  else None.

End ConnectionManager.

(** * Properties *)

(** ** Redis commands *)

Section RedisFacts.
Import Redis.

Lemma unsnoc_snoc l x : unsnoc (l ++ [x]) = Some (l, x).
Proof.
  induction l as [|y l IH]; simpl; [done|]. by rewrite IH.
Qed.

Lemma unsnoc_nil_inv l : unsnoc l = None -> l = [].
Proof.
  destruct l as [|x l]; [done|]. simpl.
  destruct (unsnoc l) as [[? ?]|]; discriminate.
Qed.

Lemma unsnoc_Some l init x : unsnoc l = Some (init, x) -> l = init ++ [x].
Proof.
  revert init. induction l as [|y l IH]; intros init; simpl; [done|].
  destruct (unsnoc l) as [[i z]|] eqn:E.
  - intros [= <- <-]. simpl. f_equal. by apply IH.
  - intros [= <- <-]. apply unsnoc_nil_inv in E. by subst.
Qed.

Lemma lrange_lpush_eq key v r : lrange key (lpush key v r) = v :: lrange key r.
Proof. unfold lrange at 1, lpush. simpl. by rewrite lookup_insert_eq. Qed.

Lemma lrange_lpush_ne key key' v r :
  key <> key' -> lrange key' (lpush key v r) = lrange key' r.
Proof. intros H. unfold lrange, lpush. simpl. by rewrite lookup_insert_ne. Qed.

Lemma lrange_set key k v r : lrange key (set k v r) = lrange key r.
Proof. done. Qed.

Lemma get_lpush key k v r : get k (lpush key v r) = get k r.
Proof. done. Qed.

Lemma get_set_eq k v r : get k (set k v r) = Some v.
Proof. unfold get, set. simpl. by rewrite lookup_insert_eq. Qed.

Lemma get_set_ne k k' v r : k <> k' -> get k' (set k v r) = get k' r.
Proof. intros H. unfold get, set. simpl. by rewrite lookup_insert_ne. Qed.

Lemma brpop_Some key r v r' :
  brpop key r = Some (v, r') ->
  lrange key r = lrange key r' ++ [v] /\
  (forall key', key <> key' -> lrange key' r' = lrange key' r) /\
  strings r' = strings r.
Proof.
  unfold brpop. destruct (unsnoc (lrange key r)) as [[init x]|] eqn:E; [|done].
  intros [= <- <-]. apply unsnoc_Some in E. split_and!.
  - rewrite E. f_equal. unfold lrange. simpl.
    destruct init; simpl.
    + by rewrite lookup_delete_eq.
    + by rewrite lookup_insert_eq.
  - intros key' Hne. unfold lrange. simpl.
    destruct init; simpl.
    + by rewrite lookup_delete_ne.
    + by rewrite lookup_insert_ne.
  - by destruct init.
Qed.

Lemma brpop_None key r : brpop key r = None -> lrange key r = [].
Proof.
  unfold brpop. destruct (unsnoc (lrange key r)) as [[init x]|] eqn:E; [done|].
  intros _. by apply unsnoc_nil_inv.
Qed.

Lemma brpop_snoc key r l v :
  lrange key r = l ++ [v] ->
  exists r', brpop key r = Some (v, r') /\ lrange key r' = l.
Proof.
  intros H. unfold brpop. rewrite H, unsnoc_snoc. eexists. split; [done|].
  unfold lrange. simpl. destruct l; simpl.
  - by rewrite lookup_delete_eq.
  - by rewrite lookup_insert_eq.
Qed.

Lemma brpop_empty key r : lrange key r = [] -> brpop key r = None.
Proof. intros H. unfold brpop. by rewrite H. Qed.

End RedisFacts.

(** ** First in, first out *)




(** ** One attempt *)

Lemma job_key_inj a b : job_key a = job_key b -> a = b.
Proof. unfold job_key. intros H. cbn in H. by simplify_eq. Qed.

(** What [process_blender_job] leaves behind. *)
Lemma process_blender_job_spec a jd r :
  exists ok rec r',
    process_blender_job a jd r = (ok, rec, r') /\
    ok = bool_decide (is_Some (blender_run a jd)) /\
    status rec = (if ok then "completed" else "failed_blender") /\
    job_id rec = job_id jd /\
    blender_retries rec = blender_retries jd /\
    (scene_path rec = scene_path jd /\ output_path rec = output_path jd) /\
    Redis.lists r' = Redis.lists r /\
    Redis.get (job_key (job_id jd)) r' = Some rec /\
    (forall k, k <> job_key (job_id jd) -> Redis.get k r' = Redis.get k r).
Proof.
  unfold process_blender_job.
  destruct (blender_run a jd) as [[out size]|] eqn:E; do 3 eexists;
    (split; [reflexivity|]); split_and!; try done.
  - apply get_set_eq.
  - intros k Hk. rewrite !get_set_ne; done.
  - apply get_set_eq.
  - intros k Hk. rewrite !get_set_ne; done.
Qed.

Lemma handle_job_spec max_retries a jd w :
  exists rec,
    Redis.get (job_key (job_id jd)) (redis (handle_job max_retries a jd w)) = Some rec /\
    job_id rec = job_id jd /\
    blender_retries rec = blender_retries jd /\
    (scene_path rec = scene_path jd /\ output_path rec = output_path jd) /\
    (forall k, k <> job_key (job_id jd) ->
       Redis.get k (redis (handle_job max_retries a jd w)) = Redis.get k (redis w)) /\
    handled max_retries a jd w (handle_job max_retries a jd w) rec.
Proof.
  unfold handle_job.
  destruct (process_blender_job_spec a jd (redis w))
    as (ok & rec & r' & -> & Hok & Hst & Hid & Hre & (Hsp & Hop) & Hl & Hget & Hoth).
  exists rec. destruct ok.
  - simpl. split_and!; try done.
    apply handled_completed; try done.
    symmetry in Hok. by apply bool_decide_eq_true in Hok.
  - assert (blender_run a jd = None) as Hnone.
    { symmetry in Hok. apply bool_decide_eq_false in Hok.
      destruct (blender_run a jd); [|done]. by destruct Hok. }
    destruct (Z.ltb_spec (default 0 (blender_retries jd)) max_retries); simpl.
    + split_and!; try done.
      apply handled_retry; try done; simpl.
      * rewrite lrange_lpush_eq. unfold Redis.lrange. by rewrite Hl.
      * intros key Hk. rewrite lrange_lpush_ne by done.
        unfold Redis.lrange. by rewrite Hl.
    + split_and!; try done.
      apply handled_dead; try done; simpl.
      * rewrite lrange_lpush_eq. unfold Redis.lrange. by rewrite Hl.
      * intros key Hk. rewrite lrange_lpush_ne by done.
        unfold Redis.lrange. by rewrite Hl.
Qed.

(** ** Invariants of the worker pool *)

Lemma upload_video_blender_lists u r key :
  key <> "colmap_jobs" ->
  Redis.lrange key (upload_video u r).2 = Redis.lrange key r.
Proof.
  intros Hk. unfold upload_video.
  destruct (format_ok u), (size_ok u), (written u); simpl; try done.
  rewrite lrange_set, lrange_lpush_ne; done.
Qed.

Lemma upload_video_get u r k :
  k <> job_key (uuid u) -> Redis.get k (upload_video u r).2 = Redis.get k r.
Proof.
  intros Hk. unfold upload_video.
  destruct (format_ok u), (size_ok u), (written u); simpl; try done.
  rewrite get_set_ne, get_lpush; done.
Qed.

(** The queue after [handle_job]: unchanged, or the handled job's descriptor
    in front of it. *)
Lemma handle_job_queue max_retries a jd w :
  let q := Redis.lrange "blender_jobs" (redis w) in
  let q' := Redis.lrange "blender_jobs" (redis (handle_job max_retries a jd w)) in
  q' = q \/ exists d, job_id d = job_id jd /\ q' = d :: q.
Proof.
  destruct (handle_job_spec max_retries a jd w) as (rec & _ & Hid & _ & _ & _ & H).
  simpl. destruct H as [rec ? ? Hl ?|rec ? ? ? Hq ? ?|rec ? ? ? ? Hq ?].
  - left. unfold Redis.lrange. by rewrite Hl.
  - right. eexists. split; [|exact Hq]. done.
  - left. by apply Hq.
Qed.

(** The dead-letter list after [handle_job]. *)
Lemma handle_job_dead_letters max_retries a jd w :
  let dl := Redis.lrange "failed_blender_jobs" (redis w) in
  let dl' := Redis.lrange "failed_blender_jobs" (redis (handle_job max_retries a jd w)) in
  dl' = dl \/ exists d, job_id d = job_id jd /\ dl' = d :: dl.
Proof.
  destruct (handle_job_spec max_retries a jd w) as (rec & _ & Hid & _ & _ & _ & H).
  simpl. destruct H as [rec ? ? Hl ?|rec ? ? ? ? Hq ?|rec ? ? ? Hq ? ?].
  - left. unfold Redis.lrange. by rewrite Hl.
  - left. by apply Hq.
  - right. eexists. split; [|exact Hq]. done.
Qed.

Lemma exclusive_step max_retries p p' :
  exclusive p -> pool_step max_retries p p' -> exclusive p'.
Proof.
  intros (Hnd & Hq & Hh) Hstep.
  destruct Hstep as [p wid jd r1 Hfree Hpop|p wid jd a Hheld|p u Hfresh];
    unfold exclusive, queue in *; simpl.
  - apply brpop_Some in Hpop as (Hsplit & _ & _).
    rewrite Hsplit in Hnd, Hq. unfold ids in Hnd, Hq.
    rewrite map_app in Hnd, Hq. simpl in Hnd, Hq.
    apply NoDup_app in Hnd as (Hnd1 & Hdisj & _).
    split_and!; [done| |].
    + intros w d Hw. destruct (decide (wid = w)) as [->|Hne].
      * rewrite lookup_insert_eq in Hw. injection Hw as <-.
        intros Hin. apply (Hdisj _ Hin). by left.
      * rewrite lookup_insert_ne in Hw by done.
        intros Hin. apply (Hq _ _ Hw). apply elem_of_app. by left.
    + intros w1 w2 d1 d2 H1 H2 Heq.
      destruct (decide (wid = w1)) as [E1|Hn1], (decide (wid = w2)) as [E2|Hn2];
        [congruence | | |].
      * subst w1. rewrite lookup_insert_eq in H1.
        rewrite lookup_insert_ne in H2 by done.
        injection H1 as <-. exfalso. apply (Hq _ _ H2).
        apply elem_of_app. right. rewrite <- Heq. by left.
      * subst w2. rewrite lookup_insert_eq in H2.
        rewrite lookup_insert_ne in H1 by done.
        injection H2 as <-. exfalso. apply (Hq _ _ H1).
        apply elem_of_app. right. rewrite Heq. by left.
      * rewrite lookup_insert_ne in H1, H2 by done. by apply (Hh _ _ _ _ H1 H2).
  - pose proof (handle_job_queue max_retries a jd (shared p)) as Hcase.
    simpl in Hcase.
    assert (forall w d, delete wid (holding p) !! w = Some d ->
              holding p !! w = Some d /\ job_id d <> job_id jd) as Hdel.
    { intros w d Hw. destruct (decide (wid = w)) as [->|Hne].
      - by rewrite lookup_delete_eq in Hw.
      - rewrite lookup_delete_ne in Hw by done. split; [done|].
        intros Heq. apply Hne. symmetry. by apply (Hh _ _ _ _ Hw Hheld). }
    split_and!.
    + destruct Hcase as [->|(d & Hid & ->)]; [done|].
      simpl. apply NoDup_cons. split; [|done]. rewrite Hid. by apply (Hq wid).
    + intros w d Hw. apply Hdel in Hw as (Hw & Hne).
      destruct Hcase as [->|(d' & Hid & ->)]; [by apply (Hq w)|].
      simpl. apply not_elem_of_cons. split; [congruence|by apply (Hq w)].
    + intros w1 w2 d1 d2 H1 H2. apply Hdel in H1 as (H1 & _).
      apply Hdel in H2 as (H2 & _). by apply Hh.
  - rewrite upload_video_blender_lists by done. done.
Qed.

Lemma exclusive_steps max_retries p p' :
  exclusive p -> rtc (pool_step max_retries) p p' -> exclusive p'.
Proof.
  intros H Hsteps. induction Hsteps; [done|].
  eauto using exclusive_step.
Qed.

(** A job with no descriptor left is never queued or held again, its record
    is never written again, and no dead letter is added for it. *)
Lemma retired_step max_retries j p p' rec :
  retired j p ->
  Redis.get (job_key j) (redis (shared p)) = Some rec ->
  pool_step max_retries p p' ->
  retired j p' /\
  Redis.get (job_key j) (redis (shared p')) = Some rec /\
  filter (fun d => job_id d = j) (dead_letters p')
    = filter (fun d => job_id d = j) (dead_letters p).
Proof.
  intros (Hq & Hh) Hrec Hstep.
  destruct Hstep as [p wid jd r1 Hfree Hpop|p wid jd a Hheld|p u Hfresh];
    unfold retired, queue, dead_letters in *; simpl.
  - apply brpop_Some in Hpop as (Hsplit & Hoth & Hstr).
    rewrite Hsplit in Hq. unfold ids in Hq. rewrite map_app in Hq.
    apply not_elem_of_app in Hq as (Hq1 & Hq2).
    split_and!.
    + done.
    + intros w d Hw. destruct (decide (wid = w)) as [->|Hne].
      * rewrite lookup_insert_eq in Hw. injection Hw as <-.
        intros E. apply Hq2. rewrite <- E. by left.
      * rewrite lookup_insert_ne in Hw by done. by apply (Hh w).
    + unfold Redis.get in *. by rewrite Hstr.
    + by rewrite Hoth.
  - pose proof (Hh _ _ Hheld) as Hne.
    split_and!.
    + destruct (handle_job_queue max_retries a jd (shared p)) as [E|(d & Hid & E)];
        simpl in E; rewrite E; [done|].
      simpl. apply not_elem_of_cons. split; [congruence|done].
    + intros w d Hw. destruct (decide (wid = w)) as [->|Hn].
      * by rewrite lookup_delete_eq in Hw.
      * rewrite lookup_delete_ne in Hw by done. by apply (Hh w).
    + destruct (handle_job_spec max_retries a jd (shared p)) as (_ & _ & _ & _ & _ & Ho & _).
      rewrite Ho; [done|]. intros E. apply job_key_inj in E. congruence.
    + destruct (handle_job_dead_letters max_retries a jd (shared p)) as [E|(d & Hid & E)];
        simpl in E; rewrite E; [done|].
      rewrite filter_cons_False; [done|]. congruence.
  - split_and!.
    + rewrite upload_video_blender_lists by done. done.
    + done.
    + rewrite upload_video_get; [done|]. intros E. rewrite E in Hrec. congruence.
    + rewrite upload_video_blender_lists by done. done.
Qed.

Lemma retired_steps max_retries j p p' rec :
  retired j p ->
  Redis.get (job_key j) (redis (shared p)) = Some rec ->
  rtc (pool_step max_retries) p p' ->
  retired j p' /\
  Redis.get (job_key j) (redis (shared p')) = Some rec /\
  filter (fun d => job_id d = j) (dead_letters p')
    = filter (fun d => job_id d = j) (dead_letters p).
Proof.
  intros Hr Hrec Hsteps. revert Hr Hrec.
  induction Hsteps as [p|p p1 p2 Hstep _ IH]; intros Hr Hrec; [done|].
  destruct (retired_step _ _ _ _ _ Hr Hrec Hstep) as (Hr1 & Hrec1 & Hd1).
  destruct (IH Hr1 Hrec1) as (Hr2 & Hrec2 & Hd2).
  split_and!; [done|done|]. by rewrite Hd2.
Qed.

(** ** The worker loop and the pool *)

(** An iteration that finds a descriptor is [handle_job] on the popped one. *)
Lemma worker_iteration_pop max_retries a w l d :
  Redis.lrange "blender_jobs" (redis w) = l ++ [d] ->
  exists r1,
    worker_iteration max_retries a w = handle_job max_retries a d (World r1 (slept w)) /\
    Redis.brpop "blender_jobs" (redis w) = Some (d, r1) /\
    Redis.lrange "blender_jobs" r1 = l /\
    (forall key, key <> "blender_jobs" -> Redis.lrange key r1 = Redis.lrange key (redis w)) /\
    (forall k, Redis.get k r1 = Redis.get k (redis w)).
Proof.
  intros Hq. destruct (brpop_snoc _ _ _ _ Hq) as (r1 & Hpop & Hl).
  exists r1. unfold worker_iteration. rewrite Hpop. split_and!; try done.
  - intros key Hk. apply brpop_Some in Hpop as (_ & Ho & _). by apply Ho.
  - intros k. apply brpop_Some in Hpop as (_ & _ & Hs). unfold Redis.get. by rewrite Hs.
Qed.



(** A worker that holds a descriptor [jd] under [exclusive] retires the job
    when its handling does not put the descriptor back on the queue. *)
Lemma handled_retired max_retries p wid jd a :
  exclusive p ->
  holding p !! wid = Some jd ->
  ids (queue (Pool (handle_job max_retries a jd (shared p)) (delete wid (holding p))))
    = ids (queue p) ->
  retired (job_id jd) (Pool (handle_job max_retries a jd (shared p)) (delete wid (holding p))).
Proof.
  intros (Hnd & Hq & Hh) Hheld Hsame. split.
  - rewrite Hsame. by apply (Hq wid).
  - simpl. intros w d Hw Heq.
    destruct (decide (wid = w)) as [->|Hne].
    + by rewrite lookup_delete_eq in Hw.
    + rewrite lookup_delete_ne in Hw by done.
      apply Hne. symmetry. by apply (Hh _ _ _ _ Hw Hheld).
Qed.

Lemma filter_absent j (l : list job_data) :
  j ∉ ids l -> filter (fun d => job_id d = j) l = [].
Proof.
  induction l as [|x l IH]; [done|]. simpl. intros Hn.
  apply not_elem_of_cons in Hn as (Hx & Hl).
  rewrite filter_cons_False by congruence. by apply IH.
Qed.

(** ** Retry and dead-lettering *)

(** C2.  A failed attempt on a descriptor with retry counter [r]: when
    [r < max_retries] the descriptor is pushed back on [blender_jobs], the
    queue it was popped from, with counter [r + 1], and no dead letter is
    written; when [max_retries <= r] (in particular once [r] has exceeded
    [max_retries]) it is pushed once on [failed_blender_jobs], the live queue
    is left as it is, and in every later state of the pool the job is absent
    from the live queue and has exactly one dead letter. *)
Theorem retry_then_dead_letter (max_retries : Z) (p : pool) (wid : nat)
    (jd : job_data) (a : attempt) :
  holding p !! wid = Some jd ->
  blender_run a jd = None ->
  let r := default 0 (blender_retries jd) in
  let p1 := Pool (handle_job max_retries a jd (shared p)) (delete wid (holding p)) in
  (r < max_retries ->
     exists d, queue p1 = d :: queue p /\ job_id d = job_id jd /\
       blender_retries d = Some (r + 1) /\ dead_letters p1 = dead_letters p) /\
  (max_retries <= r ->
     exists d, dead_letters p1 = d :: dead_letters p /\ job_id d = job_id jd /\
       blender_retries d = blender_retries jd /\ queue p1 = queue p /\
       (exclusive p -> job_id jd ∉ ids (dead_letters p) ->
        forall p2, rtc (pool_step max_retries) p1 p2 ->
          (job_id jd ∉ ids (queue p2)) /\
          length (filter (fun d => job_id d = job_id jd) (dead_letters p2)) = 1%nat)).
Proof.
  intros Hheld Hfail r p1.
  destruct (handle_job_spec max_retries a jd (shared p))
    as (rec & Hget & Hid & Hre & Hpaths & Hoth & Hcase).
  split.
  - intros Hlt. destruct Hcase as [rec [? E] _ _ _|rec _ _ _ Hq Ho _|rec _ Hge _ _ _ _].
    + congruence.
    + eexists. split; [exact Hq|]. split_and!; [done|done|].
      apply Ho. done.
    + fold r in Hge. lia.
  - intros Hge. destruct Hcase as [rec [? E] _ _ _|rec _ Hlt _ _ _ _|rec _ _ _ Hq Ho _].
    + congruence.
    + fold r in Hlt. lia.
    + exists rec.
      assert (queue p1 = queue p) as Hsameq by (apply Ho; done).
      split_and!; try done.
      intros Hex Hnew p2 Hsteps.
      assert (retired (job_id jd) p1) as Hret.
      { apply handled_retired; [done|done|]. fold p1. by rewrite Hsameq. }
      destruct (retired_steps _ _ _ _ _ Hret Hget Hsteps) as ((Hnq & _) & _ & Hdl).
      split; [done|]. rewrite Hdl. unfold dead_letters at 1. unfold p1 at 1. simpl.
      rewrite Hq. rewrite filter_cons_True by done.
      simpl. by rewrite filter_absent.
Qed.

(** Witness of [retry_then_dead_letter]: worker 0 holds [A], first failure. *)
Lemma retry_then_dead_letter_witness :
  holding pool_A_held !! 0%nat = Some jobA /\
  blender_run (failing 10) jobA = None /\
  exists d,
    queue (Pool (handle_job 2 (failing 10) jobA (shared pool_A_held))
                (delete 0%nat (holding pool_A_held)))
      = d :: queue pool_A_held /\
    blender_retries d = Some 1.
Proof.
  split; [reflexivity|]. split; [reflexivity|].
  destruct (retry_then_dead_letter 2 pool_A_held 0 jobA (failing 10)
              eq_refl eq_refl) as [Hretry _].
  destruct Hretry as (d & Hq & _ & Hr & _); [simpl; lia|].
  exists d. split; [exact Hq | exact Hr].
Defined.

Lemma blender_run_paths a d d' :
  scene_path d' = scene_path d -> output_path d' = output_path d ->
  blender_run a d' = blender_run a d.
Proof. unfold blender_run. by intros -> ->. Qed.

(** An iteration on a queue that holds one descriptor, failed attempt, retries
    left. *)
Lemma worker_iteration_requeues max_retries a w d :
  Redis.lrange "blender_jobs" (redis w) = [d] ->
  blender_run a d = None ->
  default 0 (blender_retries d) < max_retries ->
  exists d',
    Redis.lrange "blender_jobs" (redis (worker_iteration max_retries a w)) = [d'] /\
    job_id d' = job_id d /\
    blender_retries d' = Some (default 0 (blender_retries d) + 1) /\
    (forall a', blender_run a' d' = blender_run a' d) /\
    (forall key, key <> "blender_jobs" ->
       Redis.lrange key (redis (worker_iteration max_retries a w)) = Redis.lrange key (redis w)).
Proof.
  intros Hq Hfail Hlt.
  destruct (worker_iteration_pop max_retries a w [] d Hq) as (r1 & -> & _ & Hl & Ho & _).
  destruct (handle_job_spec max_retries a d (World r1 (slept w)))
    as (rec & _ & Hid & _ & (Hsp & Hop) & _ & Hcase).
  destruct Hcase as [rec [? E] _ _ _|rec _ _ _ Hq' Ho' _|rec _ Hge _ _ _ _];
    [congruence| |lia].
  simpl in Hq', Ho'. rewrite Hl in Hq'. eexists. split; [exact Hq'|].
  split_and!; try done.
  - intros a'. by apply blender_run_paths.
  - intros key Hk. rewrite Ho' by done. by apply Ho.
Qed.

(** The same, no retry left. *)
Lemma worker_iteration_dead_letters max_retries a w d :
  Redis.lrange "blender_jobs" (redis w) = [d] ->
  blender_run a d = None ->
  max_retries <= default 0 (blender_retries d) ->
  exists rec,
    Redis.lrange "failed_blender_jobs" (redis (worker_iteration max_retries a w))
      = rec :: Redis.lrange "failed_blender_jobs" (redis w) /\
    Redis.lrange "blender_jobs" (redis (worker_iteration max_retries a w)) = [] /\
    Redis.get (job_key (job_id d)) (redis (worker_iteration max_retries a w)) = Some rec /\
    job_id rec = job_id d /\
    blender_retries rec = blender_retries d /\
    status rec = "failed_blender".
Proof.
  intros Hq Hfail Hge.
  destruct (worker_iteration_pop max_retries a w [] d Hq) as (r1 & -> & _ & Hl & Ho & _).
  destruct (handle_job_spec max_retries a d (World r1 (slept w)))
    as (rec & Hget & Hid & Hre & _ & _ & Hcase).
  destruct Hcase as [rec [? E] _ _ _|rec _ Hlt _ _ _ _|rec _ _ Hst Hq' Ho' _];
    [congruence|lia|].
  simpl in Hq', Ho'. exists rec. split_and!; try done.
  - rewrite Hq'. f_equal. by apply Ho.
  - rewrite Ho' by done. done.
Qed.

(** Failed attempts within the budget keep one descriptor cycling through
    the queue, one retry more each time. *)
Lemma requeue_chain max_retries attempts d w :
  Redis.lrange "blender_jobs" (redis w) = [d] ->
  Forall (fun a => blender_run a d = None) attempts ->
  default 0 (blender_retries d) + Z.of_nat (length attempts) <= max_retries ->
  exists d',
    Redis.lrange "blender_jobs" (redis (main_worker_loop max_retries attempts w)) = [d'] /\
    job_id d' = job_id d /\
    default 0 (blender_retries d')
      = default 0 (blender_retries d) + Z.of_nat (length attempts) /\
    (forall a', blender_run a' d' = blender_run a' d) /\
    (forall key, key <> "blender_jobs" ->
       Redis.lrange key (redis (main_worker_loop max_retries attempts w))
       = Redis.lrange key (redis w)).
Proof.
  intros Hq Hfail. revert d w Hq Hfail.
  induction attempts as [|a attempts IH]; intros d w Hq Hfail Hle.
  - exists d. simpl. split_and!; try done. lia.
  - apply Forall_cons in Hfail as (Ha & Hrest).
    rewrite length_cons, Nat2Z.inj_succ in *.
    change (main_worker_loop max_retries (a :: attempts) w)
      with (main_worker_loop max_retries attempts (worker_iteration max_retries a w)).
    destruct (worker_iteration_requeues max_retries a w d Hq Ha)
      as (d1 & Hq1 & Hid1 & Hr1 & Hrun1 & Ho1); [lia|].
    destruct (IH d1 (worker_iteration max_retries a w) Hq1)
      as (d' & Hq' & Hid' & Hr' & Hrun' & Ho').
    { eapply Forall_impl; [exact Hrest|]. intros a' Ha'. simpl in Ha'.
      by rewrite Hrun1. }
    { rewrite Hr1. simpl. lia. }
    exists d'. split_and!; try done.
    + congruence.
    + rewrite Hr', Hr1. simpl. lia.
    + intros a'. by rewrite Hrun', Hrun1.
    + intros key Hk. rewrite Ho', Ho1; done.
Qed.

(** X1.  For any budget: [max_retries] failed attempts are retried, the next
    failed attempt dead-letters the descriptor, whose counter is then
    [max_retries]. *)
Lemma budget_exhausted max_retries attempts a A r pauses :
  default 0 (blender_retries A) = 0 ->
  Redis.lrange "blender_jobs" r = [] ->
  Z.of_nat (length attempts) = max_retries ->
  Forall (fun a => blender_run a A = None) (attempts ++ [a]) ->
  let w0 := World (Redis.lpush "blender_jobs" A r) pauses in
  (exists d,
     Redis.lrange "blender_jobs" (redis (main_worker_loop max_retries attempts w0)) = [d] /\
     default 0 (blender_retries d) = max_retries /\
     Redis.lrange "failed_blender_jobs" (redis (main_worker_loop max_retries attempts w0))
       = Redis.lrange "failed_blender_jobs" r) /\
  (exists d,
     Redis.lrange "failed_blender_jobs"
       (redis (main_worker_loop max_retries (attempts ++ [a]) w0))
       = d :: Redis.lrange "failed_blender_jobs" r /\
     job_id d = job_id A /\
     default 0 (blender_retries d) = max_retries /\
     status d = "failed_blender").
Proof.
  intros H0 Hempty Hlen Hfail w0.
  apply Forall_app in Hfail as (Hfail & Hlast).
  rewrite Forall_singleton in Hlast.
  assert (Redis.lrange "blender_jobs" (redis w0) = [A]) as Hq0.
  { simpl. by rewrite lrange_lpush_eq, Hempty. }
  destruct (requeue_chain max_retries attempts A w0 Hq0 Hfail)
    as (d & Hq & Hid & Hr & Hrun & Ho); [lia|].
  assert (Redis.lrange "failed_blender_jobs" (redis w0)
          = Redis.lrange "failed_blender_jobs" r) as Hdl0.
  { simpl. by rewrite lrange_lpush_ne. }
  split.
  - exists d. split_and!; [done|lia|]. by rewrite Ho.
  - unfold main_worker_loop. rewrite fold_left_app. simpl.
    fold (main_worker_loop max_retries attempts w0).
    destruct (worker_iteration_dead_letters max_retries a
                (main_worker_loop max_retries attempts w0) d Hq)
      as (rec & Hdl & _ & _ & Hid' & Hr' & Hst); [by rewrite Hrun|lia|].
    exists rec. split_and!; try done.
    + by rewrite Hdl, Ho, Hdl0.
    + congruence.
    + rewrite Hr'. lia.
Qed.




(** C4.  A failed attempt with retries left: the descriptor pushed back on
    [blender_jobs] carries the incremented counter and status
    [retry_blender], the worker has slept [retry_delay], and at that moment
    the record in the Job Store still has status [failed_blender]: no [SET]
    follows the assignment of [retry_blender]. *)
Theorem retry_status_not_stored (max_retries : Z) (a : attempt) (jd : job_data)
    (w : world) :
  blender_run a jd = None ->
  default 0 (blender_retries jd) < max_retries ->
  let w' := handle_job max_retries a jd w in
  exists d rec,
    Redis.lrange "blender_jobs" (redis w') = d :: Redis.lrange "blender_jobs" (redis w) /\
    job_id d = job_id jd /\
    blender_retries d = Some (default 0 (blender_retries jd) + 1) /\
    status d = "retry_blender" /\
    slept w' = slept w ++ [retry_delay] /\
    Redis.get (job_key (job_id jd)) (redis w') = Some rec /\
    status rec = "failed_blender".
Proof.
  intros Hfail Hlt. simpl.
  destruct (handle_job_spec max_retries a jd w)
    as (rec & Hget & Hid & _ & _ & _ & Hcase).
  destruct Hcase as [rec [? E] _ _ _|rec _ _ Hst Hq _ Hsl|rec _ Hge _ _ _ _];
    [congruence| |lia].
  eexists. exists rec. split; [exact Hq|]. split_and!; done.
Qed.

(** Witness of [retry_status_not_stored]: the first failure of [A]. *)
Lemma retry_status_not_stored_witness :
  blender_run (failing 10) jobA = None /\
  default 0 (blender_retries jobA) < 2 /\
  exists rec,
    Redis.get (job_key "A") (redis (handle_job 2 (failing 10) jobA (World Redis.empty [])))
      = Some rec /\
    status rec = "failed_blender".
Proof.
  split; [reflexivity|]. split; [reflexivity|].
  destruct (retry_status_not_stored 2 (failing 10) jobA (World Redis.empty [])
              eq_refl eq_refl) as (d & rec & _ & _ & _ & _ & _ & Hget & Hst).
  exists rec. split; [exact Hget | exact Hst].
Defined.

(** ** Terminal records *)





(** ** Queue order *)



(** Pushes and pops interleaved on one key: [A], [B] queued, one pop, [A]
    queued again, two pops. *)
Example fifo_interleaved :
  (run_queue "blender_jobs"
     [Enqueue jobA; Enqueue jobB; Dequeue; Enqueue jobA; Dequeue; Dequeue; Dequeue]
     Redis.empty).1
  = [jobA; jobB; jobA].
Proof. vm_compute. reflexivity. Qed.

(** ** Exclusive processing rights *)

(** Two successive pops of one key hand out two different entries. *)
Lemma brpop_twice key r d1 r1 d2 r2 :
  NoDup (ids (Redis.lrange key r)) ->
  Redis.brpop key r = Some (d1, r1) ->
  Redis.brpop key r1 = Some (d2, r2) ->
  job_id d1 <> job_id d2 /\ job_id d1 ∉ ids (Redis.lrange key r1).
Proof.
  intros Hnd H1 H2.
  apply brpop_Some in H1 as (E1 & _ & _). apply brpop_Some in H2 as (E2 & _ & _).
  rewrite E1 in Hnd. unfold ids in *. rewrite map_app in Hnd.
  apply NoDup_app in Hnd as (_ & Hdisj & _).
  assert (job_id d1 ∉ map job_id (Redis.lrange key r1)) as Hnot.
  { intros Hin. apply (Hdisj _ Hin). by left. }
  split; [|done]. intros Heq. apply Hnot. rewrite E2, map_app, Heq.
  apply elem_of_app. right. by left.
Qed.

(** C9.  [BRPOP] being atomic, two dequeues on one queue never receive the
    same descriptor, and in every state a pool of workers reaches from a
    queue with distinct job ids and idle workers, two different workers hold
    descriptors of different jobs. *)
Theorem at_most_one_holder :
  (forall key r d1 r1 d2 r2,
     NoDup (ids (Redis.lrange key r)) ->
     Redis.brpop key r = Some (d1, r1) ->
     Redis.brpop key r1 = Some (d2, r2) ->
     job_id d1 <> job_id d2 /\ job_id d1 ∉ ids (Redis.lrange key r1)) /\
  (forall max_retries p0 p w1 w2 d1 d2,
     NoDup (ids (queue p0)) ->
     holding p0 = ∅ ->
     rtc (pool_step max_retries) p0 p ->
     holding p !! w1 = Some d1 ->
     holding p !! w2 = Some d2 ->
     w1 <> w2 ->
     job_id d1 <> job_id d2).
Proof.
  split; [apply brpop_twice|].
  intros max_retries p0 p w1 w2 d1 d2 Hnd Hidle Hsteps H1 H2 Hne Heq.
  assert (exclusive p0) as Hex0.
  { split_and!; [done| |]; rewrite Hidle; intros *; by rewrite lookup_empty. }
  destruct (exclusive_steps _ _ _ Hex0 Hsteps) as (_ & _ & Hh).
  by apply Hne, (Hh _ _ _ _ H1 H2).
Qed.

(** [A] then [B] are queued; worker 0 pops, then worker 1 pops. *)
Lemma two_workers_pop :
  let p0 := Pool (World (Redis.lpush "blender_jobs" jobB
                           (Redis.lpush "blender_jobs" jobA Redis.empty)) []) ∅ in
  exists p,
    rtc (pool_step 2) p0 p /\
    holding p !! 0%nat = Some jobA /\
    holding p !! 1%nat = Some jobB.
Proof.
  intros p0. eexists. split.
  - eapply rtc_l.
    + apply (step_pop 2 p0 0%nat); [reflexivity|vm_compute; reflexivity].
    + eapply rtc_l; [|apply rtc_refl].
      eapply (step_pop 2 _ 1%nat); [reflexivity|vm_compute; reflexivity].
  - split; reflexivity.
Qed.

(** Witness of [at_most_one_holder]: the two pops of [two_workers_pop]. *)
Lemma at_most_one_holder_witness :
  let p0 := Pool (World (Redis.lpush "blender_jobs" jobB
                           (Redis.lpush "blender_jobs" jobA Redis.empty)) []) ∅ in
  NoDup (ids (queue p0)) /\
  holding p0 = ∅ /\
  exists p,
    rtc (pool_step 2) p0 p /\
    holding p !! 0%nat = Some jobA /\
    holding p !! 1%nat = Some jobB /\
    job_id jobA <> job_id jobB.
Proof.
  intros p0.
  assert (NoDup (ids (queue p0))) as Hnd.
  { vm_compute. apply NoDup_cons. split; [|apply NoDup_singleton].
    intros Hin. apply list_elem_of_singleton in Hin. discriminate. }
  split; [exact Hnd|]. split; [reflexivity|].
  destruct two_workers_pop as (p & Hsteps & H0 & H1).
  exists p. split; [exact Hsteps|]. split; [exact H0|]. split; [exact H1|].
  exact (proj2 at_most_one_holder 2 p0 p 0%nat 1%nat jobA jobB Hnd eq_refl Hsteps
           H0 H1 ltac:(discriminate)).
Defined.

(** ** The broadcast server *)

Section ServerFacts.
Import WebSocketServer.
Variable net : network.

Lemma unregister_client_clients c s :
  clients (unregister_client c s) = delete c (clients s) /\
  wire (unregister_client c s) = wire s.
Proof.
  unfold unregister_client. destruct (clients s !! c) eqn:E; simpl; [done|].
  by rewrite delete_id.
Qed.

Lemma unregister_all l s cid :
  clients (fold_left (fun s c => unregister_client c s) l s) !! cid
    = (if decide (cid ∈ l) then None else clients s !! cid) /\
  wire (fold_left (fun s c => unregister_client c s) l s) = wire s.
Proof.
  revert s. induction l as [|c l IH]; intros s; simpl.
  - done.
  - destruct (IH (unregister_client c s)) as (Hc & Hw).
    destruct (unregister_client_clients c s) as (Hc1 & Hw1).
    rewrite Hc, Hw, Hc1, Hw1. split; [|done].
    destruct (decide (cid ∈ l)) as [Hin|Hnin].
    + rewrite decide_True; [done|]. by right.
    + destruct (decide (cid = c)) as [->|Hne].
      * rewrite decide_True by (by left). apply lookup_delete_eq.
      * rewrite decide_False.
        -- by apply lookup_delete_ne.
        -- intros [?|?]%elem_of_cons; done.
Qed.

(** The calls of one pass, and the ids it collects. *)
Lemma broadcast_pass_spec m items dis calls :
  broadcast_pass net m items dis calls
  = (dis ++ (filter (fun it => net it.2 <> Sent) items).*1,
     calls ++ ((fun it => SendCall it.2 m (net it.2)) <$> items)).
Proof.
  revert dis calls. induction items as [|[cid ws] items IH]; intros dis calls; simpl.
  - by rewrite !app_nil_r.
  - destruct (net ws) eqn:E; rewrite IH.
    + rewrite filter_cons_False by (simpl; rewrite E; tauto).
      by rewrite <- app_assoc.
    + rewrite filter_cons_True by (simpl; by rewrite E).
      simpl. by rewrite <- !app_assoc.
    + rewrite filter_cons_True by (simpl; by rewrite E).
      simpl. by rewrite <- !app_assoc.
Qed.

Lemma broadcast_spec m s :
  wire (broadcast net m s)
    = wire s ++ ((fun it => SendCall it.2 m (net it.2)) <$> map_to_list (clients s)) /\
  forall cid,
    clients (broadcast net m s) !! cid
    = match clients s !! cid with
      | Some ws => if decide (net ws = Sent) then Some ws else None
      | None => None
      end.
Proof.
  unfold broadcast. destruct (decide (clients s = ∅)) as [E|_].
  - rewrite E, map_to_list_empty. simpl. rewrite app_nil_r. split; [done|].
    intros cid. by rewrite lookup_empty.
  - rewrite broadcast_pass_spec. simpl.
    set (l := (filter (fun it => net it.2 <> Sent) (map_to_list (clients s))).*1).
    set (s' := Make (clients s) _).
    split; [by destruct (unregister_all l s' "") as (_ & ->)|].
    intros cid. destruct (unregister_all l s' cid) as (-> & _). subst l s'.
    simpl. destruct (clients s !! cid) as [ws|] eqn:Hc.
    + destruct (decide (net ws = Sent)) as [Hs|Hf].
      * rewrite decide_False; [done|].
        intros ([cid' ws'] & -> & Hin)%list_elem_of_fmap.
        apply list_elem_of_filter in Hin as (Hfail & Hin). simpl in *.
        apply elem_of_map_to_list in Hin. congruence.
      * rewrite decide_True; [done|].
        apply list_elem_of_fmap. exists (cid, ws). split; [done|].
        apply list_elem_of_filter. split; [done|]. by apply elem_of_map_to_list.
    + by case_decide.
Qed.

End ServerFacts.

Section ServerClaims.
Import WebSocketServer.

(** C5.  [send_to_client] to a registered client whose [send] raises: on
    [ConnectionClosed] the result is [False] and the client is unregistered;
    on any other exception the result is [False] and the client stays in the
    registry. *)
Theorem send_to_client_failures (net : network) (client_id : string)
    (ws : socket) (m : out_message) (s : t) :
  clients s !! client_id = Some ws ->
  (net ws = ConnectionClosed ->
     send_to_client net client_id m s
     = (false, Make (delete client_id (clients s))
                 (wire s ++ [SendCall ws m ConnectionClosed]))) /\
  (net ws = OtherError ->
     send_to_client net client_id m s
     = (false, Make (clients s) (wire s ++ [SendCall ws m OtherError]))).
Proof.
  intros Hreg. unfold send_to_client. rewrite Hreg.
  split; intros ->; [|done].
  unfold unregister_client. simpl. by rewrite Hreg.
Qed.

(** Witness of [send_to_client_failures]: the send to [c1] raises an exception
    other than [ConnectionClosed]; [c1] is still registered afterwards. *)
Lemma send_to_client_failures_witness :
  clients c1_c2 !! "c1" = Some 1%N /\
  one_broken 1%N = OtherError /\
  (send_to_client one_broken "c1" (ProgressUpdate "X" event42) c1_c2).1 = false /\
  clients (send_to_client one_broken "c1" (ProgressUpdate "X" event42) c1_c2).2 !! "c1"
    = Some 1%N.
Proof.
  split; [reflexivity|]. split; [reflexivity|].
  destruct (send_to_client_failures one_broken "c1" 1%N (ProgressUpdate "X" event42)
              c1_c2 eq_refl) as [_ H].
  rewrite (H eq_refl). split; reflexivity.
Defined.

(** The sibling path: a pass of [broadcast] unregisters [c1] for the same
    exception. *)
Lemma broadcast_unregisters_on_other_error :
  clients (broadcast one_broken (ProgressUpdate "X" event42) c1_c2) !! "c1" = None /\
  clients (broadcast one_broken (ProgressUpdate "X" event42) c1_c2) !! "c2" = Some 2%N.
Proof. vm_compute. done. Qed.




(** The scenario of C6: [c1]'s socket is closed; the pass removes [c1] and
    leaves [c2], which receives the message. *)
Lemma broadcast_removes_only_c1 :
  let s' := broadcast one_closed (ProgressUpdate "X" event42) c1_c2 in
  clients s' !! "c1" = None /\
  clients s' !! "c2" = Some 2%N /\
  received 2%N (wire s') = [ProgressUpdate "X" event42] /\
  received 1%N (wire s') = [].
Proof. vm_compute. done. Qed.

(** C10.  On a connection that has not sent [identify], a [subscribe_job]
    frame changes nothing: the local [client_id] is still unset, no [send] is
    called and the registry is the same. *)
Theorem subscribe_before_identify (net : network) (r : Redis.t) (ws : socket)
    (frames : list frame) (job_id : option string) (s : t) :
  Forall (fun f => forall c, f <> Identify c) frames ->
  receive net r ws None (frames ++ [SubscribeJob job_id]) s = (None, s) /\
  handle_client net r ws (frames ++ [SubscribeJob job_id]) s = s.
Proof.
  intros Hno.
  assert (receive net r ws None (frames ++ [SubscribeJob job_id]) s = (None, s)) as E.
  { induction Hno as [|f frames Hf _ IH]; simpl.
    - destruct (truthy job_id); simpl; [|done]. by destruct job_id.
    - destruct f as [c|j| |]; simpl.
      + by destruct (Hf c).
      + destruct (truthy j); simpl; [|done]. by destruct j.
      + done.
      + done. }
  split; [done|]. unfold handle_client. by rewrite E.
Qed.

(** Witness of [subscribe_before_identify]. *)
Lemma subscribe_before_identify_witness :
  Forall (fun f => forall c, f <> Identify c) [OtherType] /\
  receive all_open store_X 1%N None [OtherType; SubscribeJob (Some "X")] c1_c2
    = (None, c1_c2).
Proof.
  assert (Forall (fun f => forall c, f <> Identify c) [OtherType]) as H.
  { apply Forall_cons. split; [discriminate|apply Forall_nil_2]. }
  split; [exact H|].
  exact (proj1 (subscribe_before_identify all_open store_X 1%N [OtherType]
                  (Some "X") c1_c2 H)).
Defined.

End ServerClaims.

(** ** Snapshots *)

Section Snapshots.
Import WebSocketServer.

(** The server only ever adds calls at the end of [wire]. *)













(** A client that identifies with the empty string is registered and told so,
    and gets no snapshot either. *)
Lemma empty_client_id_gets_no_snapshot :
  let n := run [ (all_open, store_X, Connect 1%N);
                 (all_open, store_X, Receive 1%N (Identify (Some "")));
                 (all_open, store_X, Receive 1%N (SubscribeJob (Some "X"))) ] no_node in
  clients (server n) !! "" = Some 1%N /\
  received 1%N (wire (server n)) = [Connection ""].
Proof. vm_compute. done. Qed.

End Snapshots.

(** * Further properties of the code *)

(** ** The worker loop *)

(** Witness of [budget_exhausted]: a budget of one retry. *)
Lemma budget_exhausted_witness :
  default 0 (blender_retries jobA) = 0 /\
  Redis.lrange "blender_jobs" Redis.empty = [] /\
  Z.of_nat (length [failing 10]) = 1 /\
  Forall (fun a => blender_run a jobA = None) ([failing 10] ++ [failing 50]) /\
  exists d,
    Redis.lrange "failed_blender_jobs"
      (redis (main_worker_loop 1 ([failing 10] ++ [failing 50]) only_A)) = [d] /\
    default 0 (blender_retries d) = 1.
Proof.
  assert (Forall (fun a => blender_run a jobA = None) ([failing 10] ++ [failing 50]))
    as Hfail.
  { apply Forall_cons. split; [reflexivity|].
    apply Forall_cons. split; [reflexivity|apply Forall_nil_2]. }
  split; [reflexivity|]. split; [reflexivity|]. split; [reflexivity|].
  split; [exact Hfail|].
  destruct (budget_exhausted 1 [failing 10] (failing 50) jobA Redis.empty []
              eq_refl eq_refl eq_refl Hfail) as (_ & d & Hdl & _ & Hr & _).
  exists d. split; [exact Hdl | exact Hr].
Defined.

Lemma submseteq_NoDup {A} (l k : list A) : l ⊆+ k -> NoDup k -> NoDup l.
Proof.
  intros Hsub Hnd. apply submseteq_Permutation in Hsub as [k' Hk].
  rewrite Hk in Hnd. by apply NoDup_app in Hnd as (? & _ & _).
Qed.

(** One iteration neither invents nor duplicates a job id. *)
Lemma worker_iteration_ids max_retries a w :
  ids (Redis.lrange "blender_jobs" (redis (worker_iteration max_retries a w)))
  ++ ids (Redis.lrange "failed_blender_jobs" (redis (worker_iteration max_retries a w)))
  ⊆+ ids (Redis.lrange "blender_jobs" (redis w))
     ++ ids (Redis.lrange "failed_blender_jobs" (redis w)).
Proof.
  destruct (Redis.lrange "blender_jobs" (redis w)) as [|x l] eqn:Hq using rev_ind.
  - unfold worker_iteration. by rewrite (brpop_empty _ _ Hq), Hq.
  - clear IHl.
    destruct (worker_iteration_pop max_retries a w l x Hq) as (r1 & -> & _ & Hl & Ho & _).
    destruct (handle_job_spec max_retries a x (World r1 (slept w)))
      as (rec & _ & Hid & _ & _ & _ & Hcase).
    unfold ids. rewrite map_app. simpl.
    destruct Hcase as [rec _ _ Hlists _|rec _ _ _ Hq' Ho' _|rec _ _ _ Hq' Ho' _].
    + assert (forall key,
                Redis.lrange key (redis (handle_job max_retries a x (World r1 (slept w))))
                = Redis.lrange key r1) as Hsame.
      { intros key. unfold Redis.lrange. by rewrite Hlists. }
      rewrite !Hsame, Hl, (Ho "failed_blender_jobs") by done.
      apply submseteq_app; [by apply submseteq_inserts_r|done].
    + rewrite Hq', Ho' by done. simpl in *. rewrite Hl, Ho by done. simpl.
      rewrite Hid. apply Permutation_submseteq.
      rewrite <- app_assoc. simpl.
      by rewrite <- Permutation_middle.
    + rewrite Hq', Ho' by done. simpl in *. rewrite Hl, Ho by done. simpl.
      rewrite Hid. apply Permutation_submseteq.
      rewrite <- app_assoc. simpl. done.
Qed.

(** X2.  Whatever the attempts do, [main_worker_loop] neither invents nor
    duplicates a job: the job ids on the live queue and the dead letters
    after the run are a sub-multiset of those before, and stay distinct when
    they were. *)
Theorem worker_conserves_jobs (max_retries : Z) (attempts : list attempt) (w : world) :
  let w' := main_worker_loop max_retries attempts w in
  ids (Redis.lrange "blender_jobs" (redis w'))
  ++ ids (Redis.lrange "failed_blender_jobs" (redis w'))
  ⊆+ ids (Redis.lrange "blender_jobs" (redis w))
     ++ ids (Redis.lrange "failed_blender_jobs" (redis w)) /\
  (NoDup (ids (Redis.lrange "blender_jobs" (redis w))
          ++ ids (Redis.lrange "failed_blender_jobs" (redis w))) ->
   NoDup (ids (Redis.lrange "blender_jobs" (redis w'))
          ++ ids (Redis.lrange "failed_blender_jobs" (redis w')))).
Proof.
  simpl.
  assert (ids (Redis.lrange "blender_jobs" (redis (main_worker_loop max_retries attempts w)))
          ++ ids (Redis.lrange "failed_blender_jobs"
                    (redis (main_worker_loop max_retries attempts w)))
          ⊆+ ids (Redis.lrange "blender_jobs" (redis w))
             ++ ids (Redis.lrange "failed_blender_jobs" (redis w))) as Hsub.
  { revert w. induction attempts as [|a attempts IH]; intros w; [done|].
    change (main_worker_loop max_retries (a :: attempts) w)
      with (main_worker_loop max_retries attempts (worker_iteration max_retries a w)).
    etrans; [apply IH|apply worker_iteration_ids]. }
  split; [exact Hsub|]. by apply submseteq_NoDup.
Qed.

(** What one iteration leaves alone. *)
Lemma worker_iteration_frame max_retries a w :
  (forall key, key <> "blender_jobs" -> key <> "failed_blender_jobs" ->
     Redis.lrange key (redis (worker_iteration max_retries a w)) = Redis.lrange key (redis w)) /\
  (forall j, j ∉ ids (Redis.lrange "blender_jobs" (redis w)) ->
     Redis.get (job_key j) (redis (worker_iteration max_retries a w))
     = Redis.get (job_key j) (redis w)) /\
  (forall j, j ∈ ids (Redis.lrange "blender_jobs" (redis (worker_iteration max_retries a w))) ->
     j ∈ ids (Redis.lrange "blender_jobs" (redis w))).
Proof.
  destruct (Redis.lrange "blender_jobs" (redis w)) as [|x l] eqn:Hq using rev_ind.
  - unfold worker_iteration. rewrite (brpop_empty _ _ Hq), Hq. done.
  - clear IHl.
    destruct (worker_iteration_pop max_retries a w l x Hq) as (r1 & -> & _ & Hl & Ho & Hg).
    destruct (handle_job_spec max_retries a x (World r1 (slept w)))
      as (rec & _ & Hid & _ & _ & Hoth & Hcase).
    split_and!.
    + intros key Hk1 Hk2. rewrite <- (Ho key) by done.
      destruct Hcase as [rec _ _ Hlists _|rec _ _ _ _ Ho' _|rec _ _ _ _ Ho' _].
      * unfold Redis.lrange. by rewrite Hlists.
      * by apply Ho'.
      * by apply Ho'.
    + intros j Hj. rewrite Hoth; [apply Hg|].
      intros E. apply job_key_inj in E. subst j. apply Hj.
      unfold ids. rewrite map_app. apply elem_of_app. right. by left.
    + intros j. unfold ids. rewrite map_app.
      destruct (handle_job_queue max_retries a x (World r1 (slept w))) as [E|(d & Hd & E)];
        simpl in E; rewrite E, Hl.
      * intros Hj. apply elem_of_app. by left.
      * simpl. intros [->|Hj]%elem_of_cons; apply elem_of_app.
        -- right. rewrite Hd. by left.
        -- by left.
Qed.

(** X3.  A run of [main_worker_loop] reads and writes no list but
    [blender_jobs] and [failed_blender_jobs], and writes the Job Store
    record of no job that was not on [blender_jobs] at the start. *)
Theorem worker_touches_only_its_jobs (max_retries : Z) (attempts : list attempt)
    (w : world) :
  let w' := main_worker_loop max_retries attempts w in
  (forall key, key <> "blender_jobs" -> key <> "failed_blender_jobs" ->
     Redis.lrange key (redis w') = Redis.lrange key (redis w)) /\
  (forall j, j ∉ ids (Redis.lrange "blender_jobs" (redis w)) ->
     Redis.get (job_key j) (redis w') = Redis.get (job_key j) (redis w)).
Proof.
  simpl. revert w. induction attempts as [|a attempts IH]; intros w; [done|].
  change (main_worker_loop max_retries (a :: attempts) w)
    with (main_worker_loop max_retries attempts (worker_iteration max_retries a w)).
  destruct (IH (worker_iteration max_retries a w)) as (IH1 & IH2).
  destruct (worker_iteration_frame max_retries a w) as (F1 & F2 & F3).
  split.
  - intros key Hk1 Hk2. by rewrite IH1, F1.
  - intros j Hj. rewrite IH2, F2; [done|done|].
    intros Hin. by apply Hj, F3.
Qed.

(** The retry counter of a descriptor. *)
Lemma worker_iteration_bounded max_retries a w :
  Forall (fun d => default 0 (blender_retries d) <= max_retries)
    (Redis.lrange "blender_jobs" (redis w)) ->
  Forall (fun d => default 0 (blender_retries d) = max_retries)
    (Redis.lrange "failed_blender_jobs" (redis w)) ->
  Forall (fun d => default 0 (blender_retries d) <= max_retries)
    (Redis.lrange "blender_jobs" (redis (worker_iteration max_retries a w))) /\
  Forall (fun d => default 0 (blender_retries d) = max_retries)
    (Redis.lrange "failed_blender_jobs" (redis (worker_iteration max_retries a w))).
Proof.
  intros Hq Hd.
  destruct (Redis.lrange "blender_jobs" (redis w)) as [|x l] eqn:Eq using rev_ind.
  - unfold worker_iteration. rewrite (brpop_empty _ _ Eq), Eq. done.
  - clear IHl. apply Forall_app in Hq as (Hl' & Hx). rewrite Forall_singleton in Hx.
    destruct (worker_iteration_pop max_retries a w l x Eq) as (r1 & -> & _ & Hl & Ho & _).
    destruct (handle_job_spec max_retries a x (World r1 (slept w)))
      as (rec & _ & _ & Hre & _ & _ & Hcase).
    destruct Hcase as [rec _ _ Hlists _|rec _ Hlt _ Hq' Ho' _|rec _ Hge _ Hq' Ho' _].
    + assert (forall key,
                Redis.lrange key (redis (handle_job max_retries a x (World r1 (slept w))))
                = Redis.lrange key r1) as Hsame.
      { intros key. unfold Redis.lrange. by rewrite Hlists. }
      rewrite !Hsame, Hl, (Ho "failed_blender_jobs") by done. done.
    + rewrite Hq', Ho' by done. simpl in *. rewrite Hl, Ho by done.
      split; [|done]. apply Forall_cons. split; [simpl; lia|done].
    + rewrite Hq', Ho' by done. simpl in *. rewrite Hl, Ho by done.
      split; [done|]. apply Forall_cons. split; [rewrite Hre; lia|done].
Qed.

(** X4.  The retry counter stays within the budget: when no queued
    descriptor has a counter above [max_retries] and every dead letter has
    counter [max_retries], the same holds after any run of the loop; a
    descriptor is dead-lettered with counter [max_retries] exactly. *)
Theorem retries_stay_bounded (max_retries : Z) (attempts : list attempt) (w : world) :
  Forall (fun d => default 0 (blender_retries d) <= max_retries)
    (Redis.lrange "blender_jobs" (redis w)) ->
  Forall (fun d => default 0 (blender_retries d) = max_retries)
    (Redis.lrange "failed_blender_jobs" (redis w)) ->
  let w' := main_worker_loop max_retries attempts w in
  Forall (fun d => default 0 (blender_retries d) <= max_retries)
    (Redis.lrange "blender_jobs" (redis w')) /\
  Forall (fun d => default 0 (blender_retries d) = max_retries)
    (Redis.lrange "failed_blender_jobs" (redis w')).
Proof.
  simpl. revert w. induction attempts as [|a attempts IH]; intros w Hq Hd; [done|].
  change (main_worker_loop max_retries (a :: attempts) w)
    with (main_worker_loop max_retries attempts (worker_iteration max_retries a w)).
  destruct (worker_iteration_bounded max_retries a w Hq Hd) as (Hq1 & Hd1).
  by apply IH.
Qed.

(** Witness of [retries_stay_bounded]: [A] alone, budget 1, two failures. *)
Lemma retries_stay_bounded_witness :
  Forall (fun d => default 0 (blender_retries d) <= 1)
    (Redis.lrange "blender_jobs" (redis only_A)) /\
  Forall (fun d => default 0 (blender_retries d) = 1)
    (Redis.lrange "failed_blender_jobs" (redis only_A)) /\
  Forall (fun d => default 0 (blender_retries d) = 1)
    (Redis.lrange "failed_blender_jobs"
       (redis (main_worker_loop 1 [failing 10; failing 50] only_A))).
Proof.
  assert (Forall (fun d => default 0 (blender_retries d) <= 1)
            (Redis.lrange "blender_jobs" (redis only_A))) as Hq.
  { apply Forall_cons. split; [simpl; lia|apply Forall_nil_2]. }
  assert (Forall (fun d => default 0 (blender_retries d) = 1)
            (Redis.lrange "failed_blender_jobs" (redis only_A))) as Hd.
  { apply Forall_nil_2. }
  split; [exact Hq|]. split; [exact Hd|].
  exact (proj2 (retries_stay_bounded 1 [failing 10; failing 50] only_A Hq Hd)).
Defined.

(** X8.  On an empty [blender_jobs] list every [BRPOP] times out: the loop
    changes nothing, whatever the attempts would have done, and never
    sleeps. *)
Theorem idle_worker_changes_nothing (max_retries : Z) (attempts : list attempt)
    (w : world) :
  Redis.lrange "blender_jobs" (redis w) = [] ->
  main_worker_loop max_retries attempts w = w.
Proof.
  intros Hq. induction attempts as [|a attempts IH]; [done|].
  change (main_worker_loop max_retries (a :: attempts) w)
    with (main_worker_loop max_retries attempts (worker_iteration max_retries a w)).
  unfold worker_iteration. by rewrite (brpop_empty _ _ Hq).
Qed.

(** Witness of [idle_worker_changes_nothing]. *)
Lemma idle_worker_changes_nothing_witness :
  Redis.lrange "blender_jobs" (redis (World store_X [])) = [] /\
  main_worker_loop 3 [failing 10; succeeding 50] (World store_X []) = World store_X [].
Proof.
  split; [reflexivity|].
  exact (idle_worker_changes_nothing 3 [failing 10; succeeding 50] (World store_X [])
           eq_refl).
Defined.

(** The keys an attempt writes besides [status]. *)
Lemma process_blender_job_fields a jd r :
  exists ok rec r',
    process_blender_job a jd r = (ok, rec, r') /\
    Redis.get (job_key (job_id jd)) r' = Some rec /\
    blender_started_at rec = Some (started a) /\
    (ok = false ->
       blender_run a jd = None /\
       error rec = Some (raised a) /\ failed_at rec = Some (finished a) /\
       completed_at rec = completed_at jd /\ output_file rec = output_file jd /\
       file_size rec = file_size jd) /\
    (ok = true ->
       blender_run a jd = Some (default "" (output_path jd), default 0 (saved a)) /\
       error rec = error jd /\ failed_at rec = failed_at jd /\
       completed_at rec = Some (finished a) /\ output_file rec = output_path jd /\
       file_size rec = saved a).
Proof.
  unfold process_blender_job.
  destruct (blender_run a jd) as [[out size]|] eqn:E; do 3 eexists;
    (split; [reflexivity|]); (split; [apply get_set_eq|]); (split; [done|]);
    split; try done.
  intros _. unfold blender_run in E.
  destruct (scene_path jd), (output_path jd) as [o|], (saved a) as [z|];
    try discriminate.
  injection E as <- <-. done.
Qed.

(** X6.  At a retry the descriptor pushed back on the queue is the dict that
    was just written to the Job Store, with two keys changed after the
    write: [status] and [blender_retries].  The store keeps the counter the
    attempt started with, one less than the queue's, and the error and
    times of the failed attempt. *)
Theorem retried_descriptor_outruns_record (max_retries : Z) (a : attempt)
    (jd : job_data) (w : world) :
  blender_run a jd = None ->
  default 0 (blender_retries jd) < max_retries ->
  let w' := handle_job max_retries a jd w in
  exists rec,
    Redis.get (job_key (job_id jd)) (redis w') = Some rec /\
    Redis.lrange "blender_jobs" (redis w')
      = set_status "retry_blender"
          (set_blender_retries (default 0 (blender_retries jd) + 1) rec)
        :: Redis.lrange "blender_jobs" (redis w) /\
    blender_retries rec = blender_retries jd /\
    error rec = Some (raised a) /\
    failed_at rec = Some (finished a) /\
    blender_started_at rec = Some (started a).
Proof.
  intros Hfail Hlt. simpl. unfold handle_job.
  destruct (process_blender_job_spec a jd (redis w))
    as (ok & rec & r' & E & Hok & _ & _ & Hre & _ & Hl & Hget & _).
  destruct (process_blender_job_fields a jd (redis w))
    as (ok' & rec' & r'' & E' & _ & Hst & Hf & _).
  rewrite E in E'. injection E' as <- <- <-. rewrite E.
  rewrite Hfail in Hok. rewrite bool_decide_eq_false_2 in Hok by by intros [? ?].
  subst ok. destruct (Hf eq_refl) as (_ & Herr & Hfa & _).
  destruct (Z.ltb_spec (default 0 (blender_retries jd)) max_retries); [|lia].
  exists rec. simpl. split_and!; try done.
  rewrite lrange_lpush_eq. unfold Redis.lrange. by rewrite Hl.
Qed.

(** Witness of [retried_descriptor_outruns_record]: the first failure of
    [A]. *)
Lemma retried_descriptor_outruns_record_witness :
  blender_run (failing 10) jobA = None /\
  default 0 (blender_retries jobA) < 2 /\
  exists rec,
    Redis.get (job_key "A") (redis (handle_job 2 (failing 10) jobA (World Redis.empty [])))
      = Some rec /\
    blender_retries rec = None /\
    blender_retries <$>
      Redis.lrange "blender_jobs"
        (redis (handle_job 2 (failing 10) jobA (World Redis.empty [])))
    = [Some 1].
Proof.
  split; [reflexivity|]. split; [reflexivity|].
  destruct (retried_descriptor_outruns_record 2 (failing 10) jobA (World Redis.empty [])
              eq_refl eq_refl) as (rec & Hget & Hq & Hre & _).
  exists rec. split; [exact Hget|]. split; [exact Hre|].
  rewrite Hq. reflexivity.
Defined.

(** X7.  When the budget is spent the dead letter is the Job Store record
    itself: the same dict, with status [failed_blender], the text of the
    exception under [error], and the counter the descriptor came with. *)
Theorem dead_letter_is_the_record (max_retries : Z) (a : attempt) (jd : job_data)
    (w : world) :
  blender_run a jd = None ->
  max_retries <= default 0 (blender_retries jd) ->
  let w' := handle_job max_retries a jd w in
  exists rec,
    Redis.get (job_key (job_id jd)) (redis w') = Some rec /\
    Redis.lrange "failed_blender_jobs" (redis w')
      = rec :: Redis.lrange "failed_blender_jobs" (redis w) /\
    status rec = "failed_blender" /\
    error rec = Some (raised a) /\
    failed_at rec = Some (finished a) /\
    blender_retries rec = blender_retries jd /\
    slept w' = slept w.
Proof.
  intros Hfail Hge. simpl. unfold handle_job.
  destruct (process_blender_job_spec a jd (redis w))
    as (ok & rec & r' & E & Hok & Hstat & _ & Hre & _ & Hl & Hget & _).
  destruct (process_blender_job_fields a jd (redis w))
    as (ok' & rec' & r'' & E' & _ & Hst & Hf & _).
  rewrite E in E'. injection E' as <- <- <-. rewrite E.
  rewrite Hfail in Hok. rewrite bool_decide_eq_false_2 in Hok by by intros [? ?].
  subst ok. destruct (Hf eq_refl) as (_ & Herr & Hfa & _).
  destruct (Z.ltb_spec (default 0 (blender_retries jd)) max_retries); [lia|].
  exists rec. simpl. split_and!; try done.
  rewrite lrange_lpush_eq. unfold Redis.lrange. by rewrite Hl.
Qed.

(** Witness of [dead_letter_is_the_record]: no retry allowed. *)
Lemma dead_letter_is_the_record_witness :
  blender_run (failing 10) jobA = None /\
  0 <= default 0 (blender_retries jobA) /\
  exists rec,
    Redis.lrange "failed_blender_jobs"
      (redis (handle_job 0 (failing 10) jobA (World Redis.empty []))) = [rec] /\
    error rec = Some "Failed to import COLMAP scene".
Proof.
  split; [reflexivity|]. split; [discriminate|].
  destruct (dead_letter_is_the_record 0 (failing 10) jobA (World Redis.empty [])
              eq_refl ltac:(discriminate)) as (rec & _ & Hdl & _ & Herr & _).
  exists rec. split; [exact Hdl | exact Herr].
Defined.

(** The descriptor a retry puts back, field by field. *)
Lemma retried_record max_retries a jd w :
  blender_run a jd = None ->
  default 0 (blender_retries jd) < max_retries ->
  exists rec,
    Redis.lrange "blender_jobs" (redis (handle_job max_retries a jd w))
      = set_status "retry_blender"
          (set_blender_retries (default 0 (blender_retries jd) + 1) rec)
        :: Redis.lrange "blender_jobs" (redis w) /\
    job_id rec = job_id jd /\
    blender_retries rec = blender_retries jd /\
    error rec = Some (raised a) /\
    failed_at rec = Some (finished a) /\
    (scene_path rec = scene_path jd /\ output_path rec = output_path jd).
Proof.
  intros Hfail Hlt. unfold handle_job.
  destruct (process_blender_job_spec a jd (redis w))
    as (ok & rec & r' & E & Hok & _ & Hid & Hre & (Hsp & Hop) & Hl & _ & _).
  destruct (process_blender_job_fields a jd (redis w))
    as (ok' & rec' & r'' & E' & _ & _ & Hf & _).
  rewrite E in E'. injection E' as <- <- <-. rewrite E.
  rewrite Hfail in Hok. rewrite bool_decide_eq_false_2 in Hok by by intros [? ?].
  subst ok. destruct (Hf eq_refl) as (_ & Herr & Hfa & _).
  destruct (Z.ltb_spec (default 0 (blender_retries jd)) max_retries); [|lia].
  exists rec. simpl. split_and!; try done.
  rewrite lrange_lpush_eq. unfold Redis.lrange. by rewrite Hl.
Qed.

(** X5.  The [error] and [failed_at] keys are never cleared: a job that
    fails once and then succeeds ends with a [completed] record that still
    carries the text and the time of the failure, next to the output of the
    successful attempt; nothing is left on the queue. *)
Theorem completed_record_keeps_error (max_retries : Z) (a1 a2 : attempt)
    (d : job_data) (w : world) :
  Redis.lrange "blender_jobs" (redis w) = [d] ->
  blender_run a1 d = None ->
  is_Some (blender_run a2 d) ->
  default 0 (blender_retries d) < max_retries ->
  let w' := main_worker_loop max_retries [a1; a2] w in
  exists rec,
    Redis.get (job_key (job_id d)) (redis w') = Some rec /\
    status rec = "completed" /\
    error rec = Some (raised a1) /\
    failed_at rec = Some (finished a1) /\
    output_file rec = output_path d /\
    file_size rec = saved a2 /\
    blender_retries rec = Some (default 0 (blender_retries d) + 1) /\
    Redis.lrange "blender_jobs" (redis w') = [].
Proof.
  intros Hq Hfail Hok Hlt. simpl.
  destruct (worker_iteration_pop max_retries a1 w [] d Hq) as (r1 & -> & _ & Hl & _ & _).
  destruct (retried_record max_retries a1 d (World r1 (slept w)) Hfail Hlt)
    as (rec1 & Hq1 & Hid1 & Hre1 & Herr1 & Hfa1 & Hpaths1).
  simpl in Hq1. rewrite Hl in Hq1.
  set (w1 := handle_job max_retries a1 d (World r1 (slept w))) in *.
  set (d1 := set_status "retry_blender"
               (set_blender_retries (default 0 (blender_retries d) + 1) rec1)) in *.
  destruct (worker_iteration_pop max_retries a2 w1 [] d1 Hq1) as (r2 & -> & _ & Hl2 & _ & _).
  assert (blender_run a2 d1 = blender_run a2 d) as Hrun.
  { apply blender_run_paths; apply Hpaths1. }
  unfold handle_job.
  destruct (process_blender_job_spec a2 d1 r2)
    as (ok & rec & r' & E & Hok' & Hstat & Hid & Hre & (Hsp & Hop) & Hlists & Hget & _).
  destruct (process_blender_job_fields a2 d1 r2)
    as (ok' & rec' & r'' & E' & _ & _ & _ & Hs).
  simpl in E, E'. rewrite E in E'. injection E' as <- <- <-. simpl. rewrite E.
  rewrite Hrun in Hok'. rewrite bool_decide_eq_true_2 in Hok' by done. subst ok.
  destruct (Hs eq_refl) as (_ & Herr & Hfa & _ & Hout & Hsize).
  exists rec. simpl. split_and!; try done.
  - by rewrite <- Hid1.
  - by rewrite Herr.
  - by rewrite Hfa.
  - rewrite Hout. apply Hpaths1.
  - unfold Redis.lrange. rewrite Hlists. apply Hl2.
Qed.

(** Witness of [completed_record_keeps_error]: [A] fails, then succeeds. *)
Lemma completed_record_keeps_error_witness :
  Redis.lrange "blender_jobs" (redis only_A) = [jobA] /\
  blender_run (failing 10) jobA = None /\
  is_Some (blender_run (succeeding 50) jobA) /\
  default 0 (blender_retries jobA) < 2 /\
  exists rec,
    Redis.get (job_key "A")
      (redis (main_worker_loop 2 [failing 10; succeeding 50] only_A)) = Some rec /\
    status rec = "completed" /\
    error rec = Some "Failed to import COLMAP scene".
Proof.
  split; [reflexivity|]. split; [reflexivity|]. split; [by eexists|].
  split; [reflexivity|].
  destruct (completed_record_keeps_error 2 (failing 10) (succeeding 50) jobA only_A
              eq_refl eq_refl (ex_intro _ _ eq_refl) eq_refl)
    as (rec & Hget & Hst & Herr & _).
  exists rec. split; [exact Hget|]. split; [exact Hst | exact Herr].
Defined.

(** ** The registry of the broadcast server *)

Section RegistryFacts.
Import WebSocketServer.

(** X9.  [unregister_client] is idempotent, does nothing for an unknown
    id, leaves every other id and the wire alone, and undoes the
    registration of an id that was free: after [register_client] then
    [unregister_client] the registry is what it was. *)
Theorem unregister_client_idempotent (net : network) (ws : socket)
    (client_id : string) (s : t) :
  unregister_client client_id (unregister_client client_id s)
    = unregister_client client_id s /\
  (clients s !! client_id = None -> unregister_client client_id s = s) /\
  (forall other, other <> client_id ->
     clients (unregister_client client_id s) !! other = clients s !! other) /\
  wire (unregister_client client_id s) = wire s /\
  (clients s !! client_id = None ->
   clients (unregister_client client_id (register_client net ws client_id s))
   = clients s).
Proof.
  split_and!.
  - unfold unregister_client at 2. destruct (clients s !! client_id) eqn:E.
    + unfold unregister_client. simpl. by rewrite lookup_delete_eq, E.
    + done.
  - intros E. unfold unregister_client. by rewrite E.
  - intros other Hne. destruct (unregister_client_clients client_id s) as (-> & _).
    by apply lookup_delete_ne.
  - by destruct (unregister_client_clients client_id s) as (_ & ->).
  - intros Hfree.
    destruct (unregister_client_clients client_id (register_client net ws client_id s))
      as (-> & _).
    unfold register_client, send_to_client. simpl. rewrite lookup_insert_eq.
    destruct (net ws); simpl.
    + by rewrite delete_insert_id.
    + unfold unregister_client. simpl. rewrite lookup_insert_eq. simpl.
      rewrite delete_insert_id by done. by apply delete_id.
    + by rewrite delete_insert_id.
Qed.

(** The registry after [register_client]. *)
Lemma register_client_lookup net ws c s k :
  clients (register_client net ws c s) !! k
  = if decide (k = c)
    then (if decide (net ws = ConnectionClosed) then None else Some ws)
    else clients s !! k.
Proof.
  unfold register_client, send_to_client. simpl. rewrite lookup_insert_eq.
  destruct (decide (k = c)) as [->|Hne].
  - destruct (net ws); simpl; [apply lookup_insert_eq| |apply lookup_insert_eq].
    unfold unregister_client. simpl. rewrite lookup_insert_eq. simpl.
    apply lookup_delete_eq.
  - destruct (net ws); simpl; [by apply lookup_insert_ne| |by apply lookup_insert_ne].
    unfold unregister_client. simpl. rewrite lookup_insert_eq. simpl.
    rewrite lookup_delete_ne, lookup_insert_ne; done.
Qed.

(** X10.  [register_client] takes the id for the new socket whatever was
    registered under it (last registration wins) and sends one [connection]
    message on it.  When that send raises [ConnectionClosed] the id is
    unregistered again at once; when it raises anything else the client is
    registered without having been told.  No other id changes. *)
Theorem register_client_outcomes (net : network) (ws : socket)
    (client_id : string) (s : t) :
  let s' := register_client net ws client_id s in
  wire s' = wire s ++ [SendCall ws (Connection client_id) (net ws)] /\
  clients s' !! client_id
    = (if decide (net ws = ConnectionClosed) then None else Some ws) /\
  (forall other, other <> client_id -> clients s' !! other = clients s !! other).
Proof.
  simpl. unfold register_client, send_to_client. simpl. rewrite lookup_insert_eq.
  destruct (net ws) eqn:E; simpl.
  - split_and!; [done|apply lookup_insert_eq|].
    intros other Hne. by apply lookup_insert_ne.
  - unfold unregister_client. simpl. rewrite lookup_insert_eq. simpl.
    split_and!; [done|apply lookup_delete_eq|].
    intros other Hne. rewrite lookup_delete_ne, lookup_insert_ne; done.
  - split_and!; [done|apply lookup_insert_eq|].
    intros other Hne. by apply lookup_insert_ne.
Qed.

End RegistryFacts.

(** ** Connections *)

Section ConnectionFacts.
Import WebSocketServer.

Lemma receive_unparsable net r ws c pre post s :
  receive net r ws c (pre ++ Unparsable :: post) s = receive net r ws c pre s.
Proof.
  revert c s. induction pre as [|f pre IH]; intros c s; simpl; [done|].
  destruct (on_frame net r ws c f s) as [[c' s']|]; [apply IH|done].
Qed.

(** X11.  A frame that is not a JSON object ends the handler: the frames
    that follow it on the connection have no effect, and the [finally]
    clause runs as if the connection had closed there. *)
Theorem unparsable_frame_ends_handler (net : network) (r : Redis.t) (ws : socket)
    (pre post : list frame) (s : t) :
  handle_client net r ws (pre ++ Unparsable :: post) s = handle_client net r ws pre s.
Proof. unfold handle_client. by rewrite receive_unparsable. Qed.

Lemma send_to_client_other net c m s other :
  other <> c -> clients (send_to_client net c m s).2 !! other = clients s !! other.
Proof.
  intros Hne. unfold send_to_client. destruct (clients s !! c) as [ws|] eqn:E; [|done].
  destruct (net ws); simpl; try done.
  unfold unregister_client. simpl. rewrite E. simpl. by apply lookup_delete_ne.
Qed.

(** Frames other than [identify] touch no id but the connection's own. *)
Lemma receive_keeps_others net r ws b rest s other :
  Forall (fun f => forall c, f <> Identify c) rest ->
  other <> b ->
  (receive net r ws (Some b) rest s).1 = Some b /\
  clients (receive net r ws (Some b) rest s).2 !! other = clients s !! other.
Proof.
  intros Hno Hne. revert s. induction Hno as [|f rest Hf _ IH]; intros s; simpl; [done|].
  destruct f as [c|j| |]; simpl.
  - by destruct (Hf c).
  - match goal with |- context [if ?c then _ else _] => destruct c end; [|apply IH].
    destruct j as [j|]; [|apply IH].
    destruct (IH (subscribe_to_job_progress net r b j s)) as (-> & ->).
    split; [done|]. unfold subscribe_to_job_progress.
    destruct (Redis.get (job_key j) r); [|done]. by apply send_to_client_other.
  - apply IH.
  - done.
Qed.

(** X12.  [handle_client] unregisters only the last id the connection gave:
    when a connection identifies as [a] and then as [b], its frames after
    that touch [b] alone, and after the connection closes [a] is still
    registered to the closed socket. *)
Theorem reidentify_leaves_stale_id (net : network) (r : Redis.t) (ws : socket)
    (a b : string) (rest : list frame) (s : t) :
  net ws <> ConnectionClosed ->
  a <> b ->
  Forall (fun f => forall c, f <> Identify c) rest ->
  let s' := handle_client net r ws (Identify (Some a) :: Identify (Some b) :: rest) s in
  clients s' !! a = Some ws /\
  (b <> "" -> clients s' !! b = None).
Proof.
  intros Hnet Hab Hrest. simpl. unfold handle_client. simpl.
  set (s1 := register_client net ws a s).
  set (s2 := register_client net ws b s1).
  destruct (receive_keeps_others net r ws b rest s2 a Hrest Hab) as (Hc & Hkeep).
  destruct (receive net r ws (Some b) rest s2) as [c s3]. simpl in *. subst c.
  assert (clients s2 !! a = Some ws) as Ha.
  { unfold s2, s1. rewrite !register_client_lookup.
    rewrite (decide_False (P := a = b)) by done.
    rewrite (decide_True (P := a = a)) by done.
    by rewrite decide_False. }
  unfold finally, truthy. destruct (String.eqb_spec b "") as [->|Hb]; simpl.
  - split; [by rewrite Hkeep|done].
  - destruct (unregister_client_clients b s3) as (-> & _). split.
    + rewrite lookup_delete_ne by done. by rewrite Hkeep.
    + intros _. apply lookup_delete_eq.
Qed.

(** Witness of [reidentify_leaves_stale_id]. *)
Lemma reidentify_leaves_stale_id_witness :
  all_open 1%N <> ConnectionClosed /\
  "a" <> "b" /\
  Forall (fun f => forall c, f <> Identify c) [SubscribeJob (Some "X")] /\
  clients (handle_client all_open store_X 1%N
             [Identify (Some "a"); Identify (Some "b"); SubscribeJob (Some "X")]
             (Make ∅ [])) !! "a" = Some 1%N.
Proof.
  assert (Forall (fun f => forall c, f <> Identify c) [SubscribeJob (Some "X")]) as H.
  { apply Forall_cons. split; [discriminate|apply Forall_nil_2]. }
  split; [discriminate|]. split; [discriminate|]. split; [exact H|].
  exact (proj1 (reidentify_leaves_stale_id all_open store_X 1%N "a" "b"
                  [SubscribeJob (Some "X")] (Make ∅ [])
                  ltac:(discriminate) ltac:(discriminate) H)).
Defined.

Lemma received_app ws l1 l2 : received ws (l1 ++ l2) = received ws l1 ++ received ws l2.
Proof. unfold received. apply omap_app. Qed.

Lemma received_cons ws c l :
  received ws (c :: l)
  = match outcome c with
    | Sent => if decide (target c = ws) then [payload c] else []
    | _ => []
    end ++ received ws l.
Proof.
  unfold received. simpl. destruct (outcome c); [|done|done].
  by destruct (decide (target c = ws)).
Qed.

Lemma received_none ws m net (items : list (string * socket)) :
  (forall it, it ∈ items -> it.2 <> ws) ->
  received ws ((fun it => SendCall it.2 m (net it.2)) <$> items) = [].
Proof.
  induction items as [|it items IH]; intros Hno; [done|].
  rewrite fmap_cons, received_cons, IH.
  - simpl. destruct (net it.2); [|done|done].
    rewrite decide_False; [done|]. apply Hno. by left.
  - intros it' Hin. apply Hno. by right.
Qed.

(** X13.  The [finally] clause removes the connection's id from the
    registry whichever socket holds it.  When another, live connection had
    taken the id over (last registration wins), closing the first one
    unregisters the second: the next broadcast makes no call on it. *)
Theorem close_unregisters_the_holder (net net' : network) (r : Redis.t) (n : node)
    (ws1 ws2 : socket) (client_id : string) (m : out_message) :
  sessions n !! ws1 = Some (Some client_id) ->
  client_id <> "" ->
  clients (server n) !! client_id = Some ws2 ->
  (forall other, clients (server n) !! other = Some ws2 -> other = client_id) ->
  let n1 := step net r (Close ws1) n in
  clients (server n1) !! client_id = None /\
  received ws2 (wire (broadcast net' m (server n1))) = received ws2 (wire (server n)).
Proof.
  intros Hses Hne Hreg Honly. simpl. rewrite Hses. simpl.
  unfold finally, truthy. rewrite (proj2 (String.eqb_neq _ _) Hne). simpl.
  destruct (unregister_client_clients client_id (server n)) as (Hc & Hw).
  split; [rewrite Hc; apply lookup_delete_eq|].
  destruct (broadcast_spec net' m (unregister_client client_id (server n))) as (-> & _).
  rewrite received_app, Hw, received_none; [by rewrite app_nil_r|].
  intros [c ws] Hin. apply elem_of_map_to_list in Hin. rewrite Hc in Hin.
  simpl. intros ->. destruct (decide (c = client_id)) as [->|Hc'].
  - by rewrite lookup_delete_eq in Hin.
  - rewrite lookup_delete_ne in Hin by done. by apply Hc', Honly.
Qed.

(** Witness of [close_unregisters_the_holder]: sockets 1 and 2 both
    identified as [a]; socket 1 closes. *)
Lemma close_unregisters_the_holder_witness :
  let n := run [ (all_open, store_X, Connect 1%N);
                 (all_open, store_X, Connect 2%N);
                 (all_open, store_X, Receive 1%N (Identify (Some "a")));
                 (all_open, store_X, Receive 2%N (Identify (Some "a"))) ] no_node in
  sessions n !! 1%N = Some (Some "a") /\
  "a" <> "" /\
  clients (server n) !! "a" = Some 2%N /\
  (forall other, clients (server n) !! other = Some 2%N -> other = "a") /\
  received 2%N
    (wire (broadcast all_open (ProgressUpdate "X" event42)
             (server (step all_open store_X (Close 1%N) n))))
  = [Connection "a"].
Proof.
  intros n.
  assert (forall other, clients (server n) !! other = Some 2%N -> other = "a") as Honly.
  { intros other H. destruct (decide (other = "a")) as [->|Hne]; [done|].
    exfalso. vm_compute in H. revert H.
    change (({[ "a" := 2%N ]} : gmap string socket) !! other = Some 2%N -> False).
    by rewrite lookup_singleton_ne. }
  split; [reflexivity|]. split; [discriminate|]. split; [reflexivity|].
  split; [exact Honly|].
  destruct (close_unregisters_the_holder all_open all_open store_X n 1%N 2%N "a"
              (ProgressUpdate "X" event42) eq_refl ltac:(discriminate) eq_refl Honly)
    as (_ & Hrecv).
  rewrite Hrecv. reflexivity.
Defined.

End ConnectionFacts.

Section BroadcastFacts.
Import WebSocketServer.


Lemma default_client_id_inj ws1 ws2 :
  default_client_id ws1 = default_client_id ws2 -> ws1 = ws2.
Proof.
  unfold default_client_id. intros H. cbn in H. simplify_eq.
  by apply (inj pretty).
Qed.

(** X15.  Two connections that identify without a [client_id] get
    different generated ids, so neither takes the other's place: both are
    registered, each to its own socket. *)
Theorem default_ids_do_not_collide (net : network) (r : Redis.t) (ws1 ws2 : socket)
    (c1 c2 : option string) (s : t) :
  ws1 <> ws2 ->
  net ws1 <> ConnectionClosed ->
  net ws2 <> ConnectionClosed ->
  exists id1 id2 s1 s2,
    on_frame net r ws1 c1 (Identify None) s = Some (Some id1, s1) /\
    on_frame net r ws2 c2 (Identify None) s1 = Some (Some id2, s2) /\
    id1 <> id2 /\
    clients s2 !! id1 = Some ws1 /\
    clients s2 !! id2 = Some ws2.
Proof.
  intros Hws H1 H2. do 4 eexists. split; [reflexivity|]. split; [reflexivity|].
  simpl.
  assert (default_client_id ws1 <> default_client_id ws2) as Hne.
  { intros E. by apply Hws, default_client_id_inj. }
  split; [done|].
  rewrite !register_client_lookup. split.
  - rewrite (decide_False (P := default_client_id ws1 = default_client_id ws2)) by done.
    rewrite (decide_True (P := default_client_id ws1 = default_client_id ws1)) by done.
    by rewrite decide_False.
  - rewrite (decide_True (P := default_client_id ws2 = default_client_id ws2)) by done.
    by rewrite decide_False.
Qed.

(** Witness of [default_ids_do_not_collide]: sockets 1 and 2. *)
Lemma default_ids_do_not_collide_witness :
  (1 <> 2)%N /\
  all_open 1%N <> ConnectionClosed /\
  all_open 2%N <> ConnectionClosed /\
  exists id1 id2 s1 s2,
    on_frame all_open store_X 1%N None (Identify None) (Make ∅ []) = Some (Some id1, s1) /\
    on_frame all_open store_X 2%N None (Identify None) s1 = Some (Some id2, s2) /\
    id1 <> id2.
Proof.
  split; [discriminate|]. split; [discriminate|]. split; [discriminate|].
  destruct (default_ids_do_not_collide all_open store_X 1%N 2%N None None (Make ∅ [])
              ltac:(discriminate) ltac:(discriminate) ltac:(discriminate))
    as (id1 & id2 & s1 & s2 & H1 & H2 & Hne & _).
  exists id1, id2, s1, s2. split; [exact H1|]. split; [exact H2 | exact Hne].
Defined.

End BroadcastFacts.

(** ** The progress channel *)

Section ChannelFacts.
Import WebSocketServer ProgressChannel.

(** X16.  The listener recovers the job id from the channel a publisher
    built for it, colons in the id included: a [pmessage] on
    [progress:<job_id>] is broadcast as a [progress_update] for [job_id].
    A channel without a colon, data that is not JSON and messages of
    another type are dropped. *)
Theorem channel_round_trip (net : network) (job_id : string)
    (d : progress_event) (s : t) :
  after_colon (channel_of job_id) = Some job_id /\
  on_bus_message net (PMessage (channel_of job_id) (Some d)) s
    = broadcast net (ProgressUpdate job_id d) s /\
  on_bus_message net (PMessage (channel_of job_id) None) s = s /\
  on_bus_message net OtherMessage s = s /\
  (forall channel, after_colon channel = None ->
     on_bus_message net (PMessage channel (Some d)) s = s).
Proof.
  split_and!; try reflexivity.
  intros channel Hc. unfold on_bus_message. by rewrite Hc.
Qed.

Lemma listen_one net job_id d s :
  listen net [(channel_of job_id, d)] s = broadcast net (ProgressUpdate job_id d) s.
Proof. done. Qed.

(** X17.  The two ways in meet in the same [broadcast]: a body posted to
    [progress_endpoint] with a non-empty [job_id] is answered 200 and, once
    the listener has read what was published, has been broadcast as the
    [progress_update] of that job with the body as data.  A body with no
    [job_id] is answered 400, an unreadable one 500, and neither publishes
    anything. *)
Theorem pushed_event_is_broadcast (net : network) (data : progress_event) (s : t) :
  (event_job_id data <> "" ->
     (progress_endpoint (Some data)).1 = 200 /\
     listen net (progress_endpoint (Some data)).2 s
       = broadcast net (ProgressUpdate (event_job_id data) data) s) /\
  (event_job_id data = "" ->
     progress_endpoint (Some data) = (400, [])) /\
  progress_endpoint None = (500, []).
Proof.
  unfold progress_endpoint. split_and!; [| |done].
  - intros Hne. rewrite (proj2 (String.eqb_neq _ _) Hne). simpl. done.
  - intros ->. done.
Qed.



End ChannelFacts.

(** ** Inside one attempt *)

Section AttemptFacts.
Import Blender.

(** X19.  [import_colmap_scene] reports 10, 30, 60, 80 in that order and
    stops reporting where it fails: what it reports is a prefix of that
    list, the whole of it exactly when it returns [True], and it returns
    [True] exactly when the reset, the addon, the sparse folder, the three
    required files and one of the two importers all go through. *)
Theorem import_reports_in_order (e : scene_env) :
  report_progress <$> (import_colmap_scene e).2 `prefix_of` [10; 30; 60; 80] /\
  ((import_colmap_scene e).1 = true <->
   report_progress <$> (import_colmap_scene e).2 = [10; 30; 60; 80]) /\
  ((import_colmap_scene e).1 = true <->
   factory_reset e = true /\ install_colmap_addon e = true /\
   sparse_exists e = true /\
   (forall f, f ∈ required_files -> present e f = true) /\
   (colmap_import e = true \/ fallback_import e = true)).
Proof.
  assert ((forall f, f ∈ required_files -> present e f = true)
          <-> forallb (present e) required_files = true) as Hfiles.
  { rewrite forallb_forall. split; intros H f Hf; apply H; by apply list_elem_of_In. }
  rewrite Hfiles. unfold import_colmap_scene.
  destruct (factory_reset e), (install_colmap_addon e), (sparse_exists e),
    (forallb (present e) required_files), (colmap_import e), (fallback_import e);
    simpl; (split; [by eexists|]); split; split; try discriminate; try done;
    try (intros (? & ? & ? & ? & [?|?]); discriminate);
    try (intros _; split_and!; (done || (by left) || (by right))).
Qed.

(** What [failed] returns. *)
Lemma failed_shape s e reports :
  saved (failed s e reports).1 = None /\
  raised (failed s e reports).1 = e /\
  (failed s e reports).2
    = reports ++ [Report "failed" 0 ("Blender processing failed: " ++ e)%string].
Proof. done. Qed.

Lemma import_colmap_scene_cases e :
  ((import_colmap_scene e).1 = true /\
   report_progress <$> (import_colmap_scene e).2 = [10; 30; 60; 80]) \/
  ((import_colmap_scene e).1 = false /\
   report_progress <$> (import_colmap_scene e).2 `prefix_of` [10; 30]).
Proof.
  unfold import_colmap_scene.
  destruct (factory_reset e), (install_colmap_addon e), (sparse_exists e),
    (forallb (present e) required_files), (colmap_import e), (fallback_import e);
    simpl; ((by left) || (right; split; [done|by eexists])).
Qed.

(** The result of [process_blender_job] on the attempt a session amounts
    to. *)
Lemma process_session_result s jd r :
  (process_blender_job (run_session s jd).1 jd r).1.1
  = bool_decide (is_Some (saved (run_session s jd).1)).
Proof.
  assert (forall e reports,
            (process_blender_job (failed s e reports).1 jd r).1.1
            = bool_decide (is_Some (saved (failed s e reports).1))) as Hfailed.
  { intros e reports. unfold process_blender_job, blender_run. simpl.
    by destruct (scene_path jd), (output_path jd). }
  unfold run_session.
  destruct (scene_path jd) as [sp|] eqn:Hsp; [|apply Hfailed].
  destruct (scene_found s); [|apply Hfailed]. simpl.
  destruct (output_path jd) as [op|] eqn:Hop; [|apply Hfailed].
  destruct (directory_made s); [|apply Hfailed]. simpl.
  destruct (import_colmap_scene (scene s)) as [[|] reps]; [|apply Hfailed]. simpl.
  destruct (save_returns s); [|apply Hfailed]. simpl.
  destruct (output_found s); [|apply Hfailed]. simpl.
  unfold process_blender_job, blender_run. simpl. by rewrite Hsp, Hop.
Qed.

(** X20.  The progress one attempt reports: 10, 30, 60, 80, 90, 100 when
    [process_blender_job] returns [True]; when it returns [False], a prefix
    of 10, 30, 60, 80, 90 followed by one last report, of stage [failed],
    with progress 0 and the text that is stored under [error]. *)
Theorem progress_of_an_attempt (s : session) (jd : job_data) (r : Redis.t) :
  let a := (run_session s jd).1 in
  let reports := (run_session s jd).2 in
  ((process_blender_job a jd r).1.1 = true /\
   report_progress <$> reports = [10; 30; 60; 80; 90; 100]) \/
  ((process_blender_job a jd r).1.1 = false /\
   exists before,
     reports = before ++
       [Report "failed" 0 ("Blender processing failed: " ++ raised a)%string] /\
     report_progress <$> before `prefix_of` [10; 30; 60; 80; 90]).
Proof.
  simpl. rewrite process_session_result. unfold run_session.
  assert (forall e reports,
            report_progress <$> reports `prefix_of` [10; 30; 60; 80; 90] ->
            bool_decide (is_Some (saved (failed s e reports).1)) = false /\
            exists before,
              (failed s e reports).2 = before ++
                [Report "failed" 0
                   ("Blender processing failed: " ++ raised (failed s e reports).1)%string] /\
              report_progress <$> before `prefix_of` [10; 30; 60; 80; 90]) as Hfailed.
  { intros e reports Hpre. split.
    - apply bool_decide_eq_false_2. by intros [? ?].
    - by exists reports. }
  destruct (scene_path jd) as [sp|]; [|right; apply Hfailed, prefix_nil].
  destruct (scene_found s); [|right; apply Hfailed, prefix_nil]. simpl.
  destruct (output_path jd) as [op|]; [|right; apply Hfailed, prefix_nil].
  destruct (directory_made s); [|right; apply Hfailed, prefix_nil]. simpl.
  destruct (import_colmap_scene_cases (scene s)) as [(Hok & Hrep)|(Hok & Hrep)];
    destruct (import_colmap_scene (scene s)) as [ok reps]; simpl in *; subst ok; simpl.
  - assert (report_progress <$>
              reps ++ [Report "blender_save" 90 "Saving Blender file"]
            = [10; 30; 60; 80; 90]) as Hrep2.
    { by rewrite fmap_app, Hrep. }
    destruct (save_returns s); [|right; apply Hfailed; by rewrite Hrep2]. simpl.
    destruct (output_found s); [|right; apply Hfailed; by rewrite Hrep2]. simpl.
    left. split; [done|].
    by rewrite fmap_app, Hrep2.
  - right. apply Hfailed.
    by apply (prefix_app_r _ [10; 30] [60; 80; 90]).
Qed.

(** X21.  Whatever makes [import_colmap_scene] return [False] (the reset,
    the addon, the sparse folder, a missing file, both importers), the Job
    Store record gets the same text under [error], "Failed to import COLMAP
    scene"; the cause is only logged.  A scene path that does not exist is
    named in the error. *)
Theorem import_failure_is_generic (s : session) (jd : job_data) (r : Redis.t)
    (scene_path0 : string) :
  scene_path jd = Some scene_path0 ->
  let result := process_blender_job (run_session s jd).1 jd r in
  (scene_found s = false ->
     result.1.1 = false /\
     error result.1.2 = Some ("Scene path does not exist: " ++ scene_path0)%string) /\
  (scene_found s = true -> is_Some (output_path jd) -> directory_made s = true ->
   (import_colmap_scene (scene s)).1 = false ->
     result.1.1 = false /\
     status result.1.2 = "failed_blender" /\
     error result.1.2 = Some "Failed to import COLMAP scene" /\
     Redis.get (job_key (job_id jd)) result.2 = Some result.1.2).
Proof.
  intros Hsp. simpl.
  assert (forall a, saved a = None ->
            (process_blender_job a jd r).1.1 = false /\
            status (process_blender_job a jd r).1.2 = "failed_blender" /\
            error (process_blender_job a jd r).1.2 = Some (raised a) /\
            Redis.get (job_key (job_id jd)) (process_blender_job a jd r).2
              = Some (process_blender_job a jd r).1.2) as Hfail.
  { intros a Ha. unfold process_blender_job, blender_run. rewrite Ha.
    destruct (scene_path jd), (output_path jd); simpl;
      (split_and!; [done|done|done|apply get_set_eq]). }
  unfold run_session. rewrite Hsp. split.
  - intros ->. simpl. destruct (Hfail (failed s
      ("Scene path does not exist: " ++ scene_path0)%string []).1 eq_refl)
      as (? & _ & ? & _). done.
  - intros -> [op ->] -> Himp. simpl.
    destruct (import_colmap_scene (scene s)) as [ok reps]. simpl in Himp. subst ok.
    simpl. apply (Hfail (failed s "Failed to import COLMAP scene" reps).1 eq_refl).
Qed.

(** Witness of [import_failure_is_generic]: [cameras.bin] is missing. *)
Lemma import_failure_is_generic_witness :
  let e := SceneEnv true true (fun _ => None) false true
             (fun f => negb (String.eqb f "cameras.bin")) true true in
  let s := Session 10 15 true true e true true 4096 "" in
  scene_path jobA = Some "/data/A/colmap" /\
  (import_colmap_scene e).1 = false /\
  error (process_blender_job (run_session s jobA).1 jobA Redis.empty).1.2
    = Some "Failed to import COLMAP scene".
Proof.
  intros e s. split; [reflexivity|]. split; [reflexivity|].
  destruct (import_failure_is_generic s jobA Redis.empty "/data/A/colmap" eq_refl)
    as (_ & H).
  destruct (H eq_refl (ex_intro _ _ eq_refl) eq_refl eq_refl) as (_ & _ & Herr & _).
  exact Herr.
Defined.

End AttemptFacts.

(** ** The camera animation *)

Section AnimationFacts.
Import Animation.
Context {pose : Type}.

Lemma animate_spec (others : list (camera pose)) :
  forall main i calls lo hi,
    Forall (fun c => lo < frame pose c < hi /\ frame pose c mod 5 = 0) calls ->
    lo < i * 5 ->
    (i + Z.of_nat (length others)) * 5 <= hi ->
    let result := animate pose main i others calls in
    length result.2 = (length calls + 2 * length others)%nat /\
    Forall (fun c => lo < frame pose c < hi /\ frame pose c mod 5 = 0) result.2 /\
    camera_name pose result.1 = camera_name pose main /\
    location pose result.1 = location pose (default main (last others)) /\
    rotation_euler pose result.1 = rotation_euler pose (default main (last others)).
Proof.
  induction others as [|cam rest IH]; intros main i calls lo hi Hcalls Hlo Hhi; simpl.
  - split_and!; (done || lia).
  - rewrite length_cons, Nat2Z.inj_succ in Hhi.
    edestruct (IH (Camera pose (camera_name pose main) (location pose cam)
                     (rotation_euler pose cam)) (i + 1)
                 (calls ++ [KeyframeInsert pose "location" (i * 5) (location pose cam);
                            KeyframeInsert pose "rotation_euler" (i * 5)
                              (rotation_euler pose cam)]) lo hi)
      as (Hlen & Hall & Hname & Hloc & Hrot).
    + apply Forall_app. split; [done|].
      repeat (apply Forall_cons; split; [simpl; split; [lia|apply Z_mod_mult]|]).
      apply Forall_nil_2.
    + lia.
    + lia.
    + split_and!; try done.
      * rewrite Hlen, length_app. simpl. lia.
      * rewrite Hloc. rewrite last_cons. by destruct (last rest).
      * rewrite Hrot. rewrite last_cons. by destruct (last rest).
Qed.

(** X22.  [setup_camera_animation] on [n] cameras: with fewer than two it
    changes nothing and inserts no keyframe; otherwise the scene runs from
    frame 1 to frame [5 n], the first camera is renamed [AnimatedCamera] and
    ends in the pose of the last one, the other cameras are untouched, and
    [2 (n - 1)] keyframes are inserted, each on a multiple of 5 strictly
    inside the frame range. *)
Theorem camera_animation_in_range (cameras : list (camera pose)) (scene : timeline) :
  let n := Z.of_nat (length cameras) in
  let result := setup_camera_animation pose cameras scene in
  (n < 2 -> result = (scene, cameras, [])) /\
  (2 <= n ->
     result.1.1 = Timeline 1 (n * 5) /\
     Z.of_nat (length result.2) = 2 * (n - 1) /\
     Forall (fun c => frame_start result.1.1 < frame pose c < frame_end result.1.1 /\
                      frame pose c mod 5 = 0) result.2 /\
     exists main,
       result.1.2 = main :: tail cameras /\
       camera_name pose main = "AnimatedCamera" /\
       Some (location pose main) = location pose <$> last cameras /\
       Some (rotation_euler pose main) = rotation_euler pose <$> last cameras).
Proof.
  simpl. unfold setup_camera_animation.
  destruct (Z.ltb_spec (Z.of_nat (length cameras)) 2) as [Hlt|Hge].
  - split; [done|lia].
  - split; [lia|]. intros _.
    destruct cameras as [|main others]; [simpl in Hge; lia|].
    rewrite length_cons, Nat2Z.inj_succ in *.
    destruct (animate_spec others
                (Camera pose "AnimatedCamera" (location pose main)
                   (rotation_euler pose main)) 1 [] 1
                (Z.succ (Z.of_nat (length others)) * 5))
      as (Hlen & Hall & Hname & Hloc & Hrot); [apply Forall_nil_2|lia|lia|].
    destruct (animate pose _ 1 others []) as [main' calls]. simpl in *.
    split_and!; try done.
    + lia.
    + exists main'. split_and!; try done.
      * rewrite Hloc. destruct others as [|c others]; [simpl in Hge; lia|].
        rewrite last_cons_cons.
        destruct (last (c :: others)) eqn:E; [done|by apply last_None in E].
      * rewrite Hrot. destruct others as [|c others]; [simpl in Hge; lia|].
        rewrite last_cons_cons.
        destruct (last (c :: others)) eqn:E; [done|by apply last_None in E].
Qed.

End AnimationFacts.

(** ** The gateway *)

(** X23.  [upload_video] either rejects the request and leaves Redis as it
    was, or accepts it and then the record under [job:<job_id>] and the
    head of [colmap_jobs] are one and the same descriptor, with status
    [queued], no retry and a budget of 3; the job id answered is the one
    generated, and no other list or record changes.  The answer is 200 or
    500: the 400s are raised inside the [try] and answered as 500. *)
Theorem upload_video_outcomes (u : upload) (r : Redis.t) :
  let accepted := format_ok u && size_ok u && written u in
  (accepted = false ->
     upload_video u r = (None, r) /\ upload_video_response u r = (500, None)) /\
  (accepted = true ->
     (upload_video u r).1 = Some (uuid u) /\
     upload_video_response u r = (200, Some (uuid u)) /\
     exists d,
       Redis.get (job_key (uuid u)) (upload_video u r).2 = Some d /\
       Redis.lrange "colmap_jobs" (upload_video u r).2
         = d :: Redis.lrange "colmap_jobs" r /\
       job_id d = uuid u /\ status d = "queued" /\
       retries d = Some 0 /\ max_retries d = Some 3 /\
       blender_retries d = None /\
       (forall key, key <> "colmap_jobs" ->
          Redis.lrange key (upload_video u r).2 = Redis.lrange key r) /\
       (forall k, k <> job_key (uuid u) ->
          Redis.get k (upload_video u r).2 = Redis.get k r)).
Proof.
  simpl. unfold upload_video_response, upload_video.
  destruct (format_ok u), (size_ok u), (written u); simpl;
    (split; [intros H; try discriminate H; done|intros H; try discriminate H]).
  split_and!; [done|done|].
  eexists. split_and!.
  1: apply get_set_eq.
  1: by rewrite lrange_set, lrange_lpush_eq.
  1-5: done.
  - intros key Hk. by rewrite lrange_set, lrange_lpush_ne.
  - intros k Hk. by rewrite get_set_ne, get_lpush.
Qed.

(** X24.  After an accepted upload [get_job_status] answers 200 with the
    queued descriptor; for a job id with no record it answers 500, not 404:
    the 404 is raised inside the [try] whose [except Exception] turns it
    into a 500. *)
Theorem job_status_after_upload (u : upload) (r : Redis.t) (job_id0 : string) :
  (upload_video u r).1 = Some job_id0 ->
  (exists d,
     get_job_status job_id0 (upload_video u r).2 = (200, Some d) /\
     job_id d = job_id0 /\ status d = "queued") /\
  (forall other,
     Redis.get (job_key other) (upload_video u r).2 = None ->
     get_job_status other (upload_video u r).2 = (500, None)).
Proof.
  intros Hup. split.
  - unfold get_job_status. revert Hup. unfold upload_video.
    destruct (format_ok u), (size_ok u), (written u); simpl; try discriminate.
    intros [= <-]. rewrite get_set_eq. by eexists.
  - intros other Hnone. unfold get_job_status. by rewrite Hnone.
Qed.

(** Witness of [job_status_after_upload]. *)
Lemma job_status_after_upload_witness :
  let u := Upload "7f3c" "walk.mp4" true true true 100 in
  (upload_video u Redis.empty).1 = Some "7f3c" /\
  (get_job_status "7f3c" (upload_video u Redis.empty).2).1 = 200 /\
  get_job_status "0000" (upload_video u Redis.empty).2 = (500, None).
Proof.
  intros u. split; [reflexivity|].
  destruct (job_status_after_upload u Redis.empty "7f3c" eq_refl) as ((d & Hd & _) & Hno).
  split; [by rewrite Hd|]. apply Hno. reflexivity.
Defined.

Section ManagerFacts.
Import WebSocketServer ConnectionManager.

(** X25.  [ConnectionManager.send_progress] makes no call for an unknown
    client; for a known one it makes one call and, when the call raises
    anything at all, disconnects that client and no other.
    [websocket_endpoint] leaves the registry without its [client_id] when it
    returns, whatever was connected under that id before, and with every
    other id as it was. *)
Theorem manager_drops_failed_clients (net : network) (client_id : string)
    (progress : progress_event) (ws : socket) (m : ConnectionManager.t) :
  (active_connections m !! client_id = None ->
     send_progress net client_id progress m = m) /\
  (forall ws0, active_connections m !! client_id = Some ws0 ->
     sent (send_progress net client_id progress m)
       = sent m ++ [(ws0, progress, net ws0)] /\
     active_connections (send_progress net client_id progress m) !! client_id
       = (if decide (net ws0 = Sent) then Some ws0 else None)) /\
  (forall other, other <> client_id ->
     active_connections (send_progress net client_id progress m) !! other
     = active_connections m !! other) /\
  (exists m',
     websocket_endpoint true ws client_id m = Some m' /\
     active_connections m' = delete client_id (active_connections m) /\
     sent m' = sent m) /\
  websocket_endpoint false ws client_id m = None.
Proof.
  split_and!.
  - intros E. unfold send_progress. by rewrite E.
  - intros ws0 E. unfold send_progress. rewrite E.
    destruct (net ws0) eqn:Hn; simpl; unfold disconnect; simpl; rewrite ?E; simpl.
    + done.
    + split; [done|apply lookup_delete_eq].
    + split; [done|apply lookup_delete_eq].
  - intros other Hne. unfold send_progress.
    destruct (active_connections m !! client_id) as [ws0|] eqn:E; [|done].
    destruct (net ws0); simpl; unfold disconnect; simpl; rewrite ?E; simpl;
      [done|by apply lookup_delete_ne|by apply lookup_delete_ne].
  - eexists. split; [reflexivity|]. unfold disconnect, connect. simpl.
    rewrite lookup_insert_eq. simpl. split; [|done].
    apply map_eq. intros k. destruct (decide (k = client_id)) as [->|Hne].
    + by rewrite !lookup_delete_eq.
    + by rewrite !lookup_delete_ne, lookup_insert_ne.
  - done.
Qed.

End ManagerFacts.

(** ** Subscriptions *)

Section SubscriptionFacts.
Import WebSocketServer ProgressChannel.

(** X26.  The server keeps no record of a subscription: unless the
    snapshot's send finds the socket closed, [subscribe_to_job_progress]
    leaves the registry as it was and adds at most the snapshot to the
    wire, so the calls of any later [broadcast] are the ones it would have
    made without the subscription, for whatever job the message is. *)
Theorem subscription_is_not_recorded (net net' : network) (r : Redis.t)
    (client_id job_id : string) (m : out_message) (s : t) :
  (forall ws, clients s !! client_id = Some ws -> net ws <> ConnectionClosed) ->
  let s1 := subscribe_to_job_progress net r client_id job_id s in
  clients s1 = clients s /\
  exists snapshot calls,
    (length snapshot <= 1)%nat /\
    wire (broadcast net' m s1) = wire s ++ snapshot ++ calls /\
    wire (broadcast net' m s) = wire s ++ calls.
Proof.
  intros Hopen. simpl.
  assert (clients (subscribe_to_job_progress net r client_id job_id s) = clients s /\
          exists snapshot,
            (length snapshot <= 1)%nat /\
            wire (subscribe_to_job_progress net r client_id job_id s)
              = wire s ++ snapshot) as (Hc & snapshot & Hlen & Hw).
  { unfold subscribe_to_job_progress, send_to_client.
    destruct (Redis.get (job_key job_id) r) as [d|];
      [|split; [done|exists []; split; [simpl; lia|by rewrite app_nil_r]]].
    destruct (clients s !! client_id) as [ws|] eqn:E;
      [|split; [done|exists []; split; [simpl; lia|by rewrite app_nil_r]]].
    specialize (Hopen ws eq_refl).
    destruct (net ws); simpl; [|done|];
      (split; [done|eexists; split; [|reflexivity]; simpl; lia]). }
  split; [done|].
  destruct (broadcast_spec net' m (subscribe_to_job_progress net r client_id job_id s))
    as (Hw1 & _).
  destruct (broadcast_spec net' m s) as (Hw0 & _).
  exists snapshot. eexists. split; [done|]. split; [|exact Hw0].
  by rewrite Hw1, Hw, Hc, <- app_assoc.
Qed.

(** Witness of [subscription_is_not_recorded]: [c2] subscribes to [X]; an
    event of job [A] still goes to [c1] and [c2]. *)
Lemma subscription_is_not_recorded_witness :
  (forall ws, clients c1_c2 !! "c2" = Some ws -> all_open ws <> ConnectionClosed) /\
  clients (subscribe_to_job_progress all_open store_X "c2" "X" c1_c2) = clients c1_c2.
Proof.
  assert (forall ws, clients c1_c2 !! "c2" = Some ws -> all_open ws <> ConnectionClosed)
    as H by (intros ws _; discriminate).
  split; [exact H|].
  exact (proj1 (subscription_is_not_recorded all_open all_open store_X "c2" "X"
                  (ProgressUpdate "A" event42) c1_c2 H)).
Defined.

(** Witness of [pushed_event_is_broadcast]: the event of job [X]. *)
Lemma pushed_event_is_broadcast_witness :
  event_job_id event42 <> "" /\
  (progress_endpoint (Some event42)).1 = 200 /\
  listen all_open (progress_endpoint (Some event42)).2 c1_c2
    = broadcast all_open (ProgressUpdate "X" event42) c1_c2.
Proof.
  split; [discriminate|].
  exact (proj1 (pushed_event_is_broadcast all_open event42 c1_c2) ltac:(discriminate)).
Defined.

End SubscriptionFacts.

(** Witness of [camera_animation_in_range]: three cameras. *)
Lemma camera_animation_in_range_witness :
  let cameras := [Animation.Camera Z "Camera0" 0 0;
                  Animation.Camera Z "Camera1" 1 10;
                  Animation.Camera Z "Camera2" 2 20] in
  2 <= Z.of_nat (length cameras) /\
  (Animation.setup_camera_animation Z cameras (Animation.Timeline 1 250)).1.1
    = Animation.Timeline 1 15 /\
  Z.of_nat (length (Animation.setup_camera_animation Z cameras
                      (Animation.Timeline 1 250)).2) = 4.
Proof.
  intros cameras. split; [discriminate|].
  destruct (camera_animation_in_range cameras (Animation.Timeline 1 250)) as (_ & H).
  destruct (H ltac:(discriminate)) as (Hscene & Hlen & _).
  split; [exact Hscene | exact Hlen].
Defined.

(** Witness of [upload_video_outcomes]: an accepted upload. *)
Lemma upload_video_outcomes_witness :
  let u := Upload "7f3c" "walk.mp4" true true true 100 in
  format_ok u && size_ok u && written u = true /\
  upload_video_response u Redis.empty = (200, Some "7f3c").
Proof.
  intros u. split; [reflexivity|].
  destruct (upload_video_outcomes u Redis.empty) as (_ & H).
  destruct (H eq_refl) as (_ & Hresp & _). exact Hresp.
Defined.
